(** * Agent / workflow orchestration core of [src/src/009_agents.ts]

    A shallow embedding of the TypeScript module: [Effect.Effect] values are
    functions on an explicit world, the State Store lives in that world (its
    history array behind a reference, as in JavaScript), [Math.random] reads
    a tape carried by the world, and the builders [createAction], [first],
    [andThen], [doIf], [noOp], [createWorkflow] and [createAgent] are
    transcribed definition by definition. *)

From Stdlib Require Import QArith Qround.
From stdpp Require Import gmap strings list pretty.

Close Scope Q_scope.
Open Scope Z_scope.

(** ** JavaScript values *)

(** The values of type [unknown] the module handles: the argument records
    given to [handle], the opaque flow state ([{}] is [JSObject []]). *)
#[warnings="-register-all"]
Inductive JSValue : Type :=
  | JSUndefined
  | JSBool (b : bool)
  | JSNumber (n : Z)
  | JSString (s : string)
  | JSObject (fields : list (string * JSValue)).

(** [Record<string, unknown>] *)
Abbreviation JSRecord := (gmap string JSValue).

(** References to JavaScript arrays of strings, and the heap they live in.
    [push] mutates the array behind the reference; every holder of the
    reference sees the change. *)
Definition loc := nat.

Abbreviation Heap := (gmap loc (list string)).

Definition readArray (h : Heap) (l : loc) : list string :=
  default [] (h !! l).

Definition pushArray (l : loc) (x : string) (h : Heap) : Heap :=
  <[l := readArray h l ++ [x]]> h.

Definition allocArray (h : Heap) : loc * Heap :=
  let l := fresh (dom h) in (l, <[l := []]> h).

(** ** Core types and interfaces (lines 5-75) *)

Module ActionReturn.
Record t : Type := mk { done : bool; result : string }.
End ActionReturn.

Module FlowIntermediateResult.
Record t : Type :=
  mk { done : bool; result : string; nextState : option JSValue }.
End FlowIntermediateResult.

(** The tagged errors of the typed error channel; [E] is the error type a
    particular action declares ([Raised]). *)
Inductive AgentError (E : Type) : Type :=
  | ParseError (message : string)
  | AgentExecutionError (message : string)
  | FlowExecutionError (message : string)
  | Raised (e : E).
Arguments ParseError {E} message.
Arguments AgentExecutionError {E} message.
Arguments FlowExecutionError {E} message.
Arguments Raised {E} e.

(** How an effect ends: a value, a typed failure, or a defect ([Effect.die]),
    which is outside the typed error channel. *)
Inductive Exit (E A : Type) : Type :=
  | Success (a : A)
  | Failure (e : AgentError E)
  | Die (defect : string).
Arguments Success {E A} a.
Arguments Failure {E A} e.
Arguments Die {E A} defect.

(** The world an effect runs in.
    - [arrays]: the heap of string arrays;
    - [conversationHistory], [executionState]: the two closure variables of
      [AgentStateService] (lines 82-83): a reference to the history array,
      which is only ever mutated in place, and the context object, which is
      only ever replaced by a fresh object;
    - [randomTape], [randomCalls]: the successive values of [Math.random()],
      as rational numbers, and how many of them have been drawn; the tape is
      not assumed to stay within [0, 1), so that what the code does with any
      answer of the decision step can be stated (see [tapeInRange]);
    - [services]: the state of the collaborators behind the actions. *)
Record World (Ext : Type) : Type := mkWorld {
  arrays : Heap;
  conversationHistory : loc;
  executionState : JSRecord;
  randomTape : nat -> Q;
  randomCalls : nat;
  services : Ext
}.
Arguments mkWorld {Ext}.
Arguments arrays {Ext} w.
Arguments conversationHistory {Ext} w.
Arguments executionState {Ext} w.
Arguments randomTape {Ext} w.
Arguments randomCalls {Ext} w.
Arguments services {Ext} w.

Definition Effect (E Ext A : Type) : Type := World Ext -> Exit E A * World Ext.

(** [Schema.Schema<any, any, any>] as far as the module uses it: through
    [Schema.decodeUnknown], whose failure is rendered with [String(error)]. *)
Inductive ParseResult : Type :=
  | Decoded (request : JSRecord)
  | Issue (error : string).

Record Schema : Type := mkSchema { decodeUnknown : JSRecord -> ParseResult }.

Module Action.
Record t (E Ext : Type) : Type := mk {
  name : string;
  description : string;
  Params : Schema;
  handle : JSRecord -> Effect E Ext ActionReturn.t
}.
Arguments mk {E Ext}.
Arguments name {E Ext} _.
Arguments description {E Ext} _.
Arguments Params {E Ext} _.
Arguments handle {E Ext} _ args.
End Action.

Module Flow.
Record t (E Ext : Type) : Type := mk {
  execute : JSValue -> Effect E Ext FlowIntermediateResult.t
}.
Arguments mk {E Ext}.
Arguments execute {E Ext} _ executionState.
End Flow.

Module Workflow.
Record t (E Ext : Type) : Type := mk {
  name : string;
  description : string;
  execute : unit -> Effect E Ext ActionReturn.t
}.
Arguments mk {E Ext}.
Arguments name {E Ext} _.
Arguments description {E Ext} _.
Arguments execute {E Ext} _ _.
End Workflow.

(** The options of [Agent.execute]. The model covers integer budgets: the
    code takes any number for [maxLoops?: number] (2.5 admits three
    iterations), and a budget that is not an integer has no value here. The
    loop counter and the indices are integers. *)
Module AgentOptions.
Record t : Type := mk { maxLoops : option Z }.
End AgentOptions.

Module Agent.
Record t (E Ext : Type) : Type := mk {
  name : string;
  description : string;
  execute : AgentOptions.t -> Effect E Ext ActionReturn.t
}.
Arguments mk {E Ext}.
Arguments name {E Ext} _.
Arguments description {E Ext} _.
Arguments execute {E Ext} _ options.
End Agent.

(** The configuration objects of the three [create*] helpers. *)
Module ActionConfig.
Record t (E Ext : Type) : Type := mk {
  name : string;
  description : string;
  Params : Schema;
  execute : JSRecord -> Effect E Ext ActionReturn.t
}.
Arguments mk {E Ext}.
Arguments name {E Ext} _.
Arguments description {E Ext} _.
Arguments Params {E Ext} _.
Arguments execute {E Ext} _ request.
End ActionConfig.

Module WorkflowConfig.
Record t (E Ext : Type) : Type := mk {
  name : string;
  description : string;
  flow : Effect E Ext (Flow.t E Ext)
}.
Arguments mk {E Ext}.
Arguments name {E Ext} _.
Arguments description {E Ext} _.
Arguments flow {E Ext} _.
End WorkflowConfig.

Module AgentConfig.
Record t (E Ext : Type) : Type := mk {
  name : string;
  description : string;
  actions : option (list (Action.t E Ext));
  workflows : option (list (Workflow.t E Ext));
  agents : option (list (Agent.t E Ext))
}.
Arguments mk {E Ext}.
Arguments name {E Ext} _.
Arguments description {E Ext} _.
Arguments actions {E Ext} _.
Arguments workflows {E Ext} _.
Arguments agents {E Ext} _.
End AgentConfig.

(** The capabilities of an agent, tagged (lines 264-267). *)
Inductive Capability (E Ext : Type) : Type :=
  | CapAction (value : Action.t E Ext)
  | CapWorkflow (value : Workflow.t E Ext)
  | CapAgent (value : Agent.t E Ext).
Arguments CapAction {E Ext} value.
Arguments CapWorkflow {E Ext} value.
Arguments CapAgent {E Ext} value.

Section Core.
Context {E Ext : Type}.

Abbreviation Eff := (Effect E Ext).
Abbreviation FlowWrap := (Effect E Ext (Flow.t E Ext)).

(** ** The effect combinators the module uses *)

Definition succeed {A} (a : A) : Eff A := fun w => (Success a, w).

Definition die {A} (defect : string) : Eff A := fun w => (Die defect, w).

(** [Effect.flatMap], and [yield*] inside [Effect.gen]: a failure or a
    defect of the first effect ends the whole computation. *)
Definition flatMap {A B} (m : Eff A) (f : A -> Eff B) : Eff B :=
  fun w =>
    match m w with
    | (Success a, w') => f a w'
    | (Failure e, w') => (Failure e, w')
    | (Die d, w') => (Die d, w')
    end.

Local Notation "'let*' x ':=' m 'in' k" := (flatMap m (fun x => k))
  (at level 10, x binder, m at level 100, k at level 200).

Definition map {A B} (f : A -> B) (m : Eff A) : Eff B :=
  let* a := m in succeed (f a).

(** [Effect.sync] of a thunk that updates the world and returns nothing. *)
Definition sync (f : World Ext -> World Ext) : Eff unit :=
  fun w => (Success tt, f w).

(** [Schema.decodeUnknown(schema)(args)] followed by the [Effect.mapError] of
    line 125, which wraps the rendered issue in a [ParseError]. *)
Definition decodeOrParseError (schema : Schema) (args : JSRecord) : Eff JSRecord :=
  fun w =>
    match decodeUnknown schema args with
    | Decoded request => (Success request, w)
    | Issue error => (Failure (ParseError error), w)
    end.

(** The world after one more value has been drawn from the tape. *)
Definition drawn (w : World Ext) : World Ext :=
  mkWorld (arrays w) (conversationHistory w) (executionState w)
          (randomTape w) (S (randomCalls w)) (services w).

(** [Math.random()]: the next value of the tape. *)
Definition Math_random : Eff Q :=
  fun w => (Success (randomTape w (randomCalls w)), drawn w).

(** [Array.get] of the effect library: [None] outside [0, length). *)
Definition Array_get {A} (self : list A) (index : Z) : option A :=
  if (index <? 0) || (Z.of_nat (length self) <=? index)
  then None
  else self !! Z.to_nat index.

(** ** AgentStateService (lines 78-107) *)

(** The service constructor: [conversationHistory = []] allocates a fresh
    array, [executionState = {}]. *)
Definition AgentStateService_Default : Eff unit :=
  sync (fun w =>
    let '(l, h) := allocArray (arrays w) in
    mkWorld h l ∅ (randomTape w) (randomCalls w) (services w)).

(** [conversationHistory.push(message)]: the array behind the reference is
    extended in place. *)
Definition pushed (message : string) (w : World Ext) : World Ext :=
  mkWorld (pushArray (conversationHistory w) message (arrays w))
          (conversationHistory w) (executionState w)
          (randomTape w) (randomCalls w) (services w).

Definition addMessage (message : string) : Eff unit :=
  sync (pushed message).

(** [Effect.succeed(conversationHistory)]: the array itself, by reference. *)
Definition getHistory : Eff loc :=
  fun w => (Success (conversationHistory w), w).

(** [executionState = { ...executionState, ...newState }]: a new object in
    which the keys of [newState] win. *)
Definition updateState (newState : JSRecord) : Eff unit :=
  sync (fun w =>
    mkWorld (arrays w) (conversationHistory w) (newState ∪ executionState w)
            (randomTape w) (randomCalls w) (services w)).

(** [Effect.succeed(executionState)], called where it is run, as in
    [yield* agentState.getState()]. *)
Definition getState : Eff JSRecord :=
  fun w => (Success (executionState w), w).

(** What a holder of an array reference reads in a given world. *)
Definition deref (w : World Ext) (l : loc) : list string :=
  readArray (arrays w) l.

(** The store's history as the store itself sees it. *)
Definition history (w : World Ext) : list string :=
  deref w (conversationHistory w).

(** ** createAction (lines 111-128) *)

Definition createAction (config : ActionConfig.t E Ext) : Action.t E Ext :=
  {| Action.name := ActionConfig.name config;
     Action.description := ActionConfig.description config;
     Action.Params := ActionConfig.Params config;
     Action.handle := fun args =>
       let* request := decodeOrParseError (ActionConfig.Params config) args in
       ActionConfig.execute config request |}.

(** ** Flow DSL (lines 130-218) *)

Definition first (step : Action.t E Ext) : FlowWrap :=
  succeed
    {| Flow.execute := fun executionState =>
         let* result := Action.handle step ∅ in
         succeed
           {| FlowIntermediateResult.done := ActionReturn.done result;
              FlowIntermediateResult.result := ActionReturn.result result;
              FlowIntermediateResult.nextState := Some executionState |} |}.

Definition andThen (step : Action.t E Ext) (previousFlow : FlowWrap) : FlowWrap :=
  let* prevFlow := previousFlow in
  succeed
    {| Flow.execute := fun executionState =>
         let* prevResult := Flow.execute prevFlow executionState in
         if FlowIntermediateResult.done prevResult
         then succeed prevResult
         else
           let* result := Action.handle step ∅ in
           succeed
             {| FlowIntermediateResult.done := ActionReturn.done result;
                FlowIntermediateResult.result := ActionReturn.result result;
                FlowIntermediateResult.nextState :=
                  FlowIntermediateResult.nextState prevResult |} |}.

(** [Math.random() > 0.5] *)
Definition conditionMet (r : Q) : bool := negb (Qle_bool r (1 # 2)).

Definition doIf (_condition : string)
    (onTrue onFalse : FlowWrap -> FlowWrap) (previousFlow : FlowWrap) : FlowWrap :=
  let* prevFlow := previousFlow in
  let* r := Math_random in
  if conditionMet r
  then onTrue (succeed prevFlow)
  else onFalse (succeed prevFlow).

Definition noOp (flow : FlowWrap) : FlowWrap := flow.

(** ** createWorkflow (lines 221-237) *)

Definition createWorkflow (config : WorkflowConfig.t E Ext) : Workflow.t E Ext :=
  {| Workflow.name := WorkflowConfig.name config;
     Workflow.description := WorkflowConfig.description config;
     Workflow.execute := fun _ =>
       map (fun result =>
              {| ActionReturn.done := FlowIntermediateResult.done result;
                 ActionReturn.result := FlowIntermediateResult.result result |})
           (let* flow := WorkflowConfig.flow config in
            Flow.execute flow (JSObject [])) |}.

End Core.

Notation "'let*' x ':=' m 'in' k" := (flatMap m (fun x => k))
  (at level 10, x binder, m at level 100, k at level 200).

(** ** Agent architecture (lines 242-361) *)

Section AgentLoop.
Context {E Ext : Type}.

(** The candidate set of lines 269-282: actions, then workflows, then
    agents, each in declared order; an absent list counts as empty. *)
Definition capabilities (config : AgentConfig.t E Ext) : list (Capability E Ext) :=
  (CapAction <$> default [] (AgentConfig.actions config))
  ++ (CapWorkflow <$> default [] (AgentConfig.workflows config))
  ++ (CapAgent <$> default [] (AgentConfig.agents config)).

(** The trace message of each arm of the [switch] of lines 311-341. *)
Definition dispatchMessage (capability : Capability E Ext) : string :=
  match capability with
  | CapAction action => "Executing action: " +:+ Action.name action
  | CapWorkflow workflow => "Executing workflow: " +:+ Workflow.name workflow
  | CapAgent agent => "Delegating to sub-agent: " +:+ Agent.name agent
  end.

(** The [switch] of lines 311-341. *)
Definition dispatch (capability : Capability E Ext) : Effect E Ext ActionReturn.t :=
  match capability with
  | CapAction action =>
      let* _ := addMessage ("Executing action: " +:+ Action.name action) in
      Action.handle action ∅
  | CapWorkflow workflow =>
      let* _ := addMessage ("Executing workflow: " +:+ Workflow.name workflow) in
      Workflow.execute workflow tt
  | CapAgent agent =>
      let* _ := addMessage ("Delegating to sub-agent: " +:+ Agent.name agent) in
      Agent.execute agent {| AgentOptions.maxLoops := Some 5 |}
  end.

(** [Math.floor(Math.random() * capabilities.length)], with the product
    taken exactly. The code floors the product rounded to a double: the two
    agree when the product is itself a double, as it is for one capability,
    and can differ by one otherwise (0.7 and 10 capabilities: 7 in the
    code, 6 here). The properties below hold for whichever capability a
    draw selects, or are about candidate sets of length 1. *)
Definition selectionIndexOf (r : Q) (len : nat) : Z :=
  Qfloor (r * inject_Z (Z.of_nat len)).

Definition impossibleIndex (selectionIndex : Z) (len : nat) : string :=
  "Impossible: index " +:+ pretty selectionIndex
  +:+ " out of bounds for array of length " +:+ pretty (Z.of_nat len).

Definition loopMessage (loopCount maxLoops : Z) : string :=
  "Agent loop " +:+ pretty (loopCount + 1) +:+ "/" +:+ pretty maxLoops.

Definition completedMessage (result : ActionReturn.t) : string :=
  "Completed with result: " +:+ ActionReturn.result result.

Definition maxLoopsMessage (maxLoops : Z) : string :=
  "Agent reached max loops (" +:+ pretty maxLoops +:+ ")".

Definition noCapabilities : ActionReturn.t :=
  {| ActionReturn.done := true;
     ActionReturn.result := "No capabilities available" |}.

Definition budgetExhausted (maxLoops : Z) : ActionReturn.t :=
  {| ActionReturn.done := true;
     ActionReturn.result :=
       "Agent reached maximum loops (" +:+ pretty maxLoops +:+ ")" |}.

(** The [while (loopCount < maxLoops)] loop of lines 260-352 and the code
    after it (lines 354-359). [remaining] is the loop's variant, the number
    of iterations the guard still admits, [Z.to_nat (maxLoops - loopCount)]:
    the guard holds exactly when it is a successor (see [loop_guard]). *)
Fixpoint agentLoop (config : AgentConfig.t E Ext) (maxLoops : Z)
    (remaining : nat) (loopCount : Z) : Effect E Ext ActionReturn.t :=
  match remaining with
  | O =>
      let* _ := addMessage (maxLoopsMessage maxLoops) in
      succeed (budgetExhausted maxLoops)
  | S remaining' =>
      let* _ := addMessage (loopMessage loopCount maxLoops) in
      let capabilities := capabilities config in
      if decide (length capabilities = 0%nat)
      then succeed noCapabilities
      else
        let* r := Math_random in
        let selectionIndex := selectionIndexOf r (length capabilities) in
        let maybeCapability := Array_get capabilities selectionIndex in
        let* capability :=
          match maybeCapability with
          | None => die (impossibleIndex selectionIndex (length capabilities))
          | Some capability => succeed capability
          end in
        let* result := dispatch capability in
        if ActionReturn.done result
        then
          let* _ := addMessage (completedMessage result) in
          succeed result
        else agentLoop config maxLoops remaining' (loopCount + 1)
  end.

Definition createAgent (config : AgentConfig.t E Ext) : Agent.t E Ext :=
  {| Agent.name := AgentConfig.name config;
     Agent.description := AgentConfig.description config;
     Agent.execute := fun options =>
       let* _ := addMessage ("Starting agent: " +:+ AgentConfig.name config) in
       let maxLoops := default 10 (AgentOptions.maxLoops options) in
       agentLoop config maxLoops (Z.to_nat maxLoops) 0 |}.

End AgentLoop.

(** ** Example schemas and actions (lines 449-589) *)

(** The field schemas the examples use. *)
Inductive FieldSchema : Type :=
  | Schema_String
  | Schema_Number
  | Schema_Boolean.

Definition fieldAccepts (s : FieldSchema) (v : JSValue) : bool :=
  match s, v with
  | Schema_String, JSString _ => true
  | Schema_Number, JSNumber _ => true
  | Schema_Boolean, JSBool _ => true
  | _, _ => false
  end.

Fixpoint decodeFields (fields : list (string * FieldSchema)) (args : JSRecord)
    (decoded : JSRecord) : ParseResult :=
  match fields with
  | [] => Decoded decoded
  | (key, s) :: rest =>
      match args !! key with
      | None => Issue (key +:+ " is missing")
      | Some v =>
          if fieldAccepts s v
          then decodeFields rest args (<[key := v]> decoded)
          else Issue (key +:+ " has an unexpected type")
      end
  end.

(** [Schema.Struct({...})] over required fields: every declared field must
    be present with a value of its type; undeclared properties are dropped.
    The issue text stands for the library's rendering of the error. *)
Definition Struct (fields : list (string * FieldSchema)) : Schema :=
  mkSchema (fun args => decodeFields fields args ∅).

Section Examples.
Context {E Ext : Type}.

(** [request.response as string] *)
Definition asString (v : option JSValue) : string :=
  match v with
  | Some (JSString s) => s
  | _ => ""
  end.

Definition respondAction : Action.t E Ext :=
  createAction
    {| ActionConfig.name := "Respond";
       ActionConfig.description :=
         "Responds to the user once the necessary information has been gathered";
       ActionConfig.Params := Struct [("response", Schema_String)];
       ActionConfig.execute := fun request =>
         succeed {| ActionReturn.done := true;
                    ActionReturn.result := asString (request !! "response") |} |}.

Definition askUserForCancellationReason : Action.t E Ext :=
  createAction
    {| ActionConfig.name := "AskCancellationReason";
       ActionConfig.description :=
         "Asks the user why they want to cancel their subscription";
       ActionConfig.Params := Struct [];
       ActionConfig.execute := fun _ =>
         succeed {| ActionReturn.done := false;
                    ActionReturn.result :=
                      "User says: 'The service is too expensive for what I get'" |} |}.

Definition emailUserAboutCancellation : Action.t E Ext :=
  createAction
    {| ActionConfig.name := "EmailUserAboutCancellation";
       ActionConfig.description := "Sends confirmation email about cancellation";
       ActionConfig.Params := Struct [];
       ActionConfig.execute := fun _ =>
         succeed {| ActionReturn.done := true;
                    ActionReturn.result :=
                      "Cancellation confirmation email sent. We're sorry to see you go!" |} |}.

End Examples.

(** A call-counting stub: the collaborator state is the number of times the
    stub's [execute] has run. *)
Definition bumpServices (w : World nat) : World nat :=
  mkWorld (arrays w) (conversationHistory w) (executionState w)
          (randomTape w) (randomCalls w) (S (services w)).

Definition countingStubConfig (name : string) (params : Schema)
    (answer : ActionReturn.t) : ActionConfig.t Empty_set nat :=
  {| ActionConfig.name := name;
     ActionConfig.description := "counts its calls";
     ActionConfig.Params := params;
     ActionConfig.execute := fun _ =>
       let* _ := sync bumpServices in succeed answer |}.

Definition countingStub (name : string) (params : Schema)
    (answer : ActionReturn.t) : Action.t Empty_set nat :=
  createAction (countingStubConfig name params answer).

(** A world with an empty store whose history array is at reference 0. *)
Definition initialWorld {Ext} (tape : nat -> Q) (ext : Ext) : World Ext :=
  mkWorld {[ 0%nat := [] ]} 0%nat ∅ tape 0%nat ext.


(** The decision tape that holds [values] and then [rest] for ever. *)
Definition tapeOf (values : list Q) (rest : Q) : nat -> Q :=
  fun i => nth i values rest.

Definition stubDone : Action.t Empty_set nat :=
  countingStub "Respond" (Struct [])
    {| ActionReturn.done := true; ActionReturn.result := "hi" |}.

Definition stubPending : Action.t Empty_set nat :=
  countingStub "Poll" (Struct [])
    {| ActionReturn.done := false; ActionReturn.result := "pending" |}.

(** A stub with a required parameter, as [searchLogsAction] has. *)
Definition stubNeedsQuery : Action.t Empty_set nat :=
  countingStub "SearchLogs" (Struct [("query", Schema_String)])
    {| ActionReturn.done := false; ActionReturn.result := "logs" |}.

Definition pollingAgent : AgentConfig.t Empty_set nat :=
  {| AgentConfig.name := "Poller";
     AgentConfig.description := "polls and never finishes";
     AgentConfig.actions := Some [stubPending];
     AgentConfig.workflows := Some [];
     AgentConfig.agents := None |}.

Definition parentAgent : AgentConfig.t Empty_set nat :=
  {| AgentConfig.name := "Parent";
     AgentConfig.description := "delegates to the poller";
     AgentConfig.actions := None;
     AgentConfig.workflows := None;
     AgentConfig.agents := Some [createAgent pollingAgent] |}.

(** [supportAgent] (lines 660-667). *)
Definition supportAgent : AgentConfig.t Empty_set nat :=
  {| AgentConfig.name := "Support Agent";
     AgentConfig.description :=
       "A comprehensive customer support agent that can help with logs, payments, and subscriptions";
     AgentConfig.actions := Some [respondAction];
     AgentConfig.workflows := Some [];
     AgentConfig.agents := Some [] |}.

(** A [doIf] shaped as the last one of [cancelSubscriptionFlow] (lines
    610-617), over the two actions of the flow that call no service. *)
Definition stillWantsToCancel : Effect Empty_set nat (Flow.t Empty_set nat) :=
  doIf "The user still wants to cancel"
    (andThen emailUserAboutCancellation) noOp (first askUserForCancellationReason).

(** ** Vocabulary of the properties *)

Section Vocabulary.
Context {E Ext : Type}.

(** The flow value [first step] resolves to. *)
Definition firstFlow (step : Action.t E Ext) : Flow.t E Ext :=
  {| Flow.execute := fun executionState =>
       let* result := Action.handle step ∅ in
       succeed
         {| FlowIntermediateResult.done := ActionReturn.done result;
            FlowIntermediateResult.result := ActionReturn.result result;
            FlowIntermediateResult.nextState := Some executionState |} |}.

(** The flow value [andThen step] builds over a resolved upstream flow. *)
Definition andThenFlow (step : Action.t E Ext) (prevFlow : Flow.t E Ext) : Flow.t E Ext :=
  {| Flow.execute := fun executionState =>
       let* prevResult := Flow.execute prevFlow executionState in
       if FlowIntermediateResult.done prevResult
       then succeed prevResult
       else
         let* result := Action.handle step ∅ in
         succeed
           {| FlowIntermediateResult.done := ActionReturn.done result;
              FlowIntermediateResult.result := ActionReturn.result result;
              FlowIntermediateResult.nextState :=
                FlowIntermediateResult.nextState prevResult |} |}.

(** What the agent loop runs for a selected capability, without the trace
    message in front of it. *)
Definition runCapability (capability : Capability E Ext) : Effect E Ext ActionReturn.t :=
  match capability with
  | CapAction action => Action.handle action ∅
  | CapWorkflow workflow => Workflow.execute workflow tt
  | CapAgent agent => Agent.execute agent {| AgentOptions.maxLoops := Some 5 |}
  end.

(** The index the selection step of line 292 computes when the loop body
    starts in world [w]: it reads the next value of the tape. *)
Definition selectedIndex (config : AgentConfig.t E Ext) (w : World Ext) : Z :=
  selectionIndexOf (randomTape w (randomCalls w)) (length (capabilities config)).



(** Executing the flow draws nothing from the decision tape. *)
Definition consultsNoDecision (flow : Flow.t E Ext) : Prop :=
  forall executionState w,
    randomCalls (snd (Flow.execute flow executionState w)) = randomCalls w.

(** A branch arm that, given a resolved upstream flow that draws nothing,
    resolves to a flow that draws nothing. *)
Definition armConsultsNoDecision
    (arm : Effect E Ext (Flow.t E Ext) -> Effect E Ext (Flow.t E Ext)) : Prop :=
  forall prevFlow w flow w',
    consultsNoDecision prevFlow ->
    arm (succeed prevFlow) w = (Success flow, w') ->
    consultsNoDecision flow.


(** Every value of the tape is a value [Math.random()] can return. *)
Definition tapeInRange (w : World Ext) : Prop :=
  forall i, (0 <= randomTape w i)%Q /\ (randomTape w i < 1)%Q.

(** An action that, called with no arguments, always succeeds with
    [done = false]; [count] reads from the collaborators' state how many
    times the action has run, and the action leaves the tape as it is. *)
Definition alwaysContinues (action : Action.t E Ext) (count : Ext -> nat) : Prop :=
  forall w, exists r w',
    Action.handle action ∅ w = (Success r, w')
    /\ ActionReturn.done r = false
    /\ randomTape w' = randomTape w
    /\ count (services w') = S (count (services w)).

(** An effect that keeps the store's history array and context object, and
    at most appends to the history messages that satisfy [P]. *)
Definition storeGrowsBy {A} (P : string -> Prop) (m : Effect E Ext A) : Prop :=
  forall w,
    conversationHistory (snd (m w)) = conversationHistory w
    /\ executionState (snd (m w)) = executionState w
    /\ exists added,
         history (snd (m w)) = history w ++ added /\ Forall P added.

(** The trace messages of the agent loop other than the completion
    message: none of them carries the result of a capability. *)
Inductive FixedTrace (config : AgentConfig.t E Ext) (maxLoops : Z) : string -> Prop :=
  | trace_start :
      FixedTrace config maxLoops ("Starting agent: " +:+ AgentConfig.name config)
  | trace_loop loopCount :
      FixedTrace config maxLoops (loopMessage loopCount maxLoops)
  | trace_dispatch capability :
      capability ∈ capabilities config ->
      FixedTrace config maxLoops (dispatchMessage capability)
  | trace_max_loops :
      FixedTrace config maxLoops (maxLoopsMessage maxLoops).

End Vocabulary.

(** ** The rest of the module: services, actions, workflow, agents *)

(** The double-quote character of the template strings. *)
Definition doubleQuote : string := String (Ascii.ascii_of_nat 34) "".

(** The example services (lines 379-447). Their methods only wait
    ([Effect.sleep], which the world has no clock for) and return. *)
Module LogsService.
Definition searchLogs {E Ext} (query : string) : Effect E Ext string :=
  succeed ("Found logs for query: " +:+ doubleQuote +:+ query +:+ doubleQuote
           +:+ " - Error occurred at timestamp 2024-01-15T10:30:00Z").
End LogsService.

Module PaymentsService.
Definition getPaymentInfo {E Ext} (userId : string) : Effect E Ext string :=
  succeed ("Payment info for user " +:+ userId
           +:+ ": Last payment $99.99 on 2024-01-01").
End PaymentsService.

Module SubscriptionService.
Definition getSubscriptionDetails {E Ext} (userId : string) : Effect E Ext JSValue :=
  succeed (JSObject [("userId", JSString userId);
                     ("plan", JSString "Premium");
                     ("startDate", JSString "2023-12-01");
                     ("monthsSubscribed", JSNumber 1)]).

Definition cancelSubscription {E Ext} (userId : string) : Effect E Ext string :=
  succeed ("Subscription cancelled for user " +:+ userId).

Definition addFreeMonth {E Ext} (userId : string) : Effect E Ext string :=
  succeed ("Added free month for user " +:+ userId).
End SubscriptionService.

Section SourceProgram.
Context {E Ext : Type}.

(** [JSON.stringify], a built-in; only [getSubscriptionDetails] uses it. *)
Variable JSON_stringify : JSValue -> string.

Definition searchLogsAction : Action.t E Ext :=
  createAction
    {| ActionConfig.name := "SearchLogs";
       ActionConfig.description := "Searches the user's logs for a given log query";
       ActionConfig.Params := Struct [("query", Schema_String)];
       ActionConfig.execute := fun request =>
         let* result := LogsService.searchLogs (asString (request !! "query")) in
         succeed {| ActionReturn.done := false; ActionReturn.result := result |} |}.

Definition getPaymentsAction : Action.t E Ext :=
  createAction
    {| ActionConfig.name := "GetPayments";
       ActionConfig.description := "Retrieves payment information for a user";
       ActionConfig.Params := Struct [("userId", Schema_String)];
       ActionConfig.execute := fun request =>
         let* result := PaymentsService.getPaymentInfo (asString (request !! "userId")) in
         succeed {| ActionReturn.done := false; ActionReturn.result := result |} |}.

Definition getSubscriptionDetails : Action.t E Ext :=
  createAction
    {| ActionConfig.name := "GetSubscriptionDetails";
       ActionConfig.description := "Retrieves subscription details for the current user";
       ActionConfig.Params := Struct [];
       ActionConfig.execute := fun _ =>
         let* details := SubscriptionService.getSubscriptionDetails "user123" in
         succeed {| ActionReturn.done := false;
                    ActionReturn.result :=
                      "Subscription details: " +:+ JSON_stringify details |} |}.

Definition offerOneMonthFree : Action.t E Ext :=
  createAction
    {| ActionConfig.name := "OfferOneMonthFree";
       ActionConfig.description := "Offers the user one month free to retain them";
       ActionConfig.Params := Struct [];
       ActionConfig.execute := fun _ =>
         succeed {| ActionReturn.done := false;
                    ActionReturn.result :=
                      "We understand your concern. How about we offer you one month free? Would that help?" |} |}.

Definition addOneMonthFree : Action.t E Ext :=
  createAction
    {| ActionConfig.name := "AddOneMonthFree";
       ActionConfig.description := "Adds one month free to the user's subscription";
       ActionConfig.Params := Struct [];
       ActionConfig.execute := fun _ =>
         let* result := SubscriptionService.addFreeMonth "user123" in
         succeed {| ActionReturn.done := false; ActionReturn.result := result |} |}.

Definition cancelSubscription : Action.t E Ext :=
  createAction
    {| ActionConfig.name := "CancelSubscription";
       ActionConfig.description := "Cancels the user's subscription";
       ActionConfig.Params := Struct [];
       ActionConfig.execute := fun _ =>
         let* result := SubscriptionService.cancelSubscription "user123" in
         succeed {| ActionReturn.done := false; ActionReturn.result := result |} |}.

(** [cancelSubscriptionFlow] (lines 594-618): [pipe(x, f, g)] is [g (f x)]. *)
Definition cancelSubscriptionFlow : Effect E Ext (Flow.t E Ext) :=
  doIf "The user still wants to cancel"
    (fun flow => andThen emailUserAboutCancellation (andThen cancelSubscription flow))
    noOp
    (doIf "The user has only been subscribed for one month"
       (fun flow =>
          doIf "The user says yes to a free month"
            (andThen addOneMonthFree) noOp
            (andThen offerOneMonthFree flow))
       noOp
       (andThen getSubscriptionDetails (first askUserForCancellationReason))).

Definition cancelSubscriptionWorkflow : Workflow.t E Ext :=
  createWorkflow
    {| WorkflowConfig.name := "Cancel a subscription";
       WorkflowConfig.description :=
         "Cancels the user's subscription with retention logic";
       WorkflowConfig.flow := cancelSubscriptionFlow |}.

(** The configurations of the specialised agents (lines 629-655). *)
Definition logsAgent : AgentConfig.t E Ext :=
  {| AgentConfig.name := "Logs Agent";
     AgentConfig.description :=
       "An agent that can search through customer logs to debug issues";
     AgentConfig.actions := Some [searchLogsAction; respondAction];
     AgentConfig.workflows := Some [];
     AgentConfig.agents := Some [] |}.

Definition paymentAgent : AgentConfig.t E Ext :=
  {| AgentConfig.name := "Payment Agent";
     AgentConfig.description :=
       "An agent specialized in payment operations and billing inquiries";
     AgentConfig.actions := Some [getPaymentsAction; respondAction];
     AgentConfig.workflows := Some [];
     AgentConfig.agents := Some [] |}.

Definition subscriptionAgent : AgentConfig.t E Ext :=
  {| AgentConfig.name := "Subscription Agent";
     AgentConfig.description :=
       "An agent that handles subscription management and cancellations";
     AgentConfig.actions := Some [getSubscriptionDetails; respondAction];
     AgentConfig.workflows := Some [cancelSubscriptionWorkflow];
     AgentConfig.agents := Some [] |}.

End SourceProgram.

(** ** Vocabulary of the further properties *)

Section FurtherVocabulary.
Context {E Ext : Type}.

(** [pipe(first(a), andThen(s1), ..., andThen(sn))]. *)
Definition pipeline (a : Action.t E Ext) (steps : list (Action.t E Ext))
    : Effect E Ext (Flow.t E Ext) :=
  foldl (fun flow step => andThen step flow) (first a) steps.

(** The flow value such a pipeline resolves to. *)
Definition pipelineFlow (a : Action.t E Ext) (steps : list (Action.t E Ext))
    : Flow.t E Ext :=
  foldl (fun flow step => andThenFlow step flow) (firstFlow a) steps.

(** Calling the actions one after the other with [{}], up to and including
    the first one that fails or returns [done = true]. *)
Fixpoint runUntilDone (a : Action.t E Ext) (rest : list (Action.t E Ext))
    : Effect E Ext ActionReturn.t :=
  let* result := Action.handle a ∅ in
  if ActionReturn.done result
  then succeed result
  else
    match rest with
    | [] => succeed result
    | b :: rest' => runUntilDone b rest'
    end.

(** An [ActionReturn] as the result of a flow run from [executionState]. *)
Definition asFlowResult (executionState : JSValue) (result : ActionReturn.t)
    : FlowIntermediateResult.t :=
  {| FlowIntermediateResult.done := ActionReturn.done result;
     FlowIntermediateResult.result := ActionReturn.result result;
     FlowIntermediateResult.nextState := Some executionState |}.

(** A program over the State Store: appends and context updates. *)
Inductive StoreOp : Type :=
  | AddMessage (message : string)
  | UpdateState (newState : JSRecord).

Definition runStoreOp (op : StoreOp) : Effect E Ext unit :=
  match op with
  | AddMessage message => addMessage message
  | UpdateState newState => updateState newState
  end.

Fixpoint runStoreOps (ops : list StoreOp) : Effect E Ext unit :=
  match ops with
  | [] => succeed tt
  | op :: rest => let* _ := runStoreOp op in runStoreOps rest
  end.

Definition messagesOf (ops : list StoreOp) : list string :=
  flat_map (fun op => match op with AddMessage message => [message] | _ => [] end) ops.

Definition updatesOf (ops : list StoreOp) : list JSRecord :=
  flat_map (fun op => match op with UpdateState newState => [newState] | _ => [] end) ops.

(** The world after [n] values have been drawn from the tape. *)
Definition drawnTimes (n : nat) (w : World Ext) : World Ext :=
  Nat.iter n drawn w.

(** The decision [doIf] reads [i] draws after the world [w]. *)
Definition decisionAt (w : World Ext) (i : nat) : bool :=
  conditionMet (randomTape w (randomCalls w + i)%nat).

(** An effect that draws nothing from the tape. *)
Definition drawsNothing {A} (m : Effect E Ext A) : Prop :=
  forall w, randomCalls (snd (m w)) = randomCalls w.

(** The steps [cancelSubscriptionFlow] appends after its first two, given
    the answers to its three conditions: one month only, yes to a free
    month, still wants to cancel. *)
Definition cancelSubscriptionSteps (d1 d2 d3 : bool) : list (Action.t E Ext) :=
  (if d1
   then offerOneMonthFree :: (if d2 then [addOneMonthFree] else [])
   else [])
  ++ (if d3 then [cancelSubscription; emailUserAboutCancellation] else []).

(** The last write to key [k] among [updates], over what was there. *)
Definition lastWrite (k : string) (before : option JSValue) (updates : list JSRecord)
    : option JSValue :=
  foldl (fun acc newState =>
           match newState !! k with
           | Some v => Some v
           | None => acc
           end) before updates.

(** A capability that is an action built with [createAction] whose
    parameter schema rejects the empty record [{}]. *)
Definition rejectsEmptyArguments (capability : Capability E Ext) : Prop :=
  exists (actionConfig : ActionConfig.t E Ext) error,
    capability = CapAction (createAction actionConfig)
    /\ decodeUnknown (ActionConfig.Params actionConfig) ∅ = Issue error.

End FurtherVocabulary.

(** * Properties *)

Section FlowProperties.
Context {E Ext : Type}.
Implicit Types (w : World Ext) (step : Action.t E Ext) (flow prevFlow : Flow.t E Ext).
Implicit Types (previousFlow : Effect E Ext (Flow.t E Ext)).

(** *** How [flatMap] runs *)

Lemma flatMap_success {A B} (m : Effect E Ext A) (f : A -> Effect E Ext B) w a w' :
  m w = (Success a, w') -> flatMap m f w = f a w'.
Proof. intros Hm. unfold flatMap. now rewrite Hm. Qed.

Lemma flatMap_failure {A B} (m : Effect E Ext A) (f : A -> Effect E Ext B) w e w' :
  m w = (Failure e, w') -> flatMap m f w = (Failure e, w').
Proof. intros Hm. unfold flatMap. now rewrite Hm. Qed.

Lemma flatMap_die {A B} (m : Effect E Ext A) (f : A -> Effect E Ext B) w d w' :
  m w = (Die d, w') -> flatMap m f w = (Die d, w').
Proof. intros Hm. unfold flatMap. now rewrite Hm. Qed.

Lemma addMessage_run message w :
  addMessage (E := E) message w = (Success tt, pushed message w).
Proof. reflexivity. Qed.

Lemma Math_random_run w :
  Math_random (E := E) w = (Success (randomTape w (randomCalls w)), drawn w).
Proof. reflexivity. Qed.

(** *** Resolution of the builders *)


Lemma andThen_resolves step previousFlow w0 prevFlow w1 :
  previousFlow w0 = (Success prevFlow, w1) ->
  andThen step previousFlow w0 = (Success (andThenFlow step prevFlow), w1).
Proof. intros H. unfold andThen. now rewrite (flatMap_success _ _ _ _ _ H). Qed.

Lemma doIf_resolves _condition onTrue onFalse previousFlow w0 prevFlow w1 :
  previousFlow w0 = (Success prevFlow, w1) ->
  doIf _condition onTrue onFalse previousFlow w0 =
    (if conditionMet (randomTape w1 (randomCalls w1)) then onTrue else onFalse)
      (succeed prevFlow) (drawn w1).
Proof.
  intros H. unfold doIf. rewrite (flatMap_success _ _ _ _ _ H).
  rewrite (flatMap_success _ _ _ _ _ (Math_random_run w1)).
  now destruct (conditionMet _).
Qed.

(** *** Execution of the flows *)

Lemma andThenFlow_done step prevFlow executionState w prevResult w' :
  Flow.execute prevFlow executionState w = (Success prevResult, w') ->
  FlowIntermediateResult.done prevResult = true ->
  Flow.execute (andThenFlow step prevFlow) executionState w = (Success prevResult, w').
Proof.
  intros Hprev Hdone. cbn [andThenFlow Flow.execute].
  rewrite (flatMap_success _ _ _ _ _ Hprev). now rewrite Hdone.
Qed.


(** C1. For every flow built with [andThen] over an upstream builder that
    resolves to a flow, and for every state: when the upstream flow's
    [execute] returns a result with [done = true], the flow built by
    [andThen] returns exactly that result (same [done], [result] and
    [nextState]) and ends in exactly the world the upstream flow ended in.
    This holds for every downstream action, whatever its [handle] would do
    to the world: its [handle] is not run. *)
Theorem andThen_short_circuits_on_done
    step previousFlow w0 prevFlow w1 executionState w prevResult w' :
  previousFlow w0 = (Success prevFlow, w1) ->
  Flow.execute prevFlow executionState w = (Success prevResult, w') ->
  FlowIntermediateResult.done prevResult = true ->
  exists flow,
    andThen step previousFlow w0 = (Success flow, w1)
    /\ Flow.execute flow executionState w = (Success prevResult, w').
Proof.
  intros Hresolve Hprev Hdone. exists (andThenFlow step prevFlow). split.
  - now apply andThen_resolves.
  - now apply andThenFlow_done.
Qed.

End FlowProperties.

Section ActionProperties.
Context {E Ext : Type}.
Implicit Types (w : World Ext) (config : ActionConfig.t E Ext).

Lemma createAction_decoded config args request w :
  decodeUnknown (ActionConfig.Params config) args = Decoded request ->
  Action.handle (createAction config) args w = ActionConfig.execute config request w.
Proof.
  intros Hdecode. cbn [createAction Action.handle].
  apply flatMap_success. unfold decodeOrParseError. now rewrite Hdecode.
Qed.

(** C5. For every action built with [createAction] and every raw argument
    record that fails to decode against the action's parameter schema,
    [handle] fails with a [ParseError] carrying the rendered issue, and the
    world is left exactly as it was: the action's [execute] function,
    whatever it is, is not run. *)
Theorem createAction_parse_error_skips_execute config args error w :
  decodeUnknown (ActionConfig.Params config) args = Issue error ->
  Action.handle (createAction config) args w = (Failure (ParseError error), w).
Proof.
  intros Hdecode. cbn [createAction Action.handle].
  apply flatMap_failure. unfold decodeOrParseError. now rewrite Hdecode.
Qed.

End ActionProperties.

Section DoIfProperties.
Context {E Ext : Type}.
Implicit Types (w : World Ext) (step : Action.t E Ext) (flow prevFlow : Flow.t E Ext).
Implicit Types (previousFlow : Effect E Ext (Flow.t E Ext)).
Implicit Types
  (onTrue onFalse : Effect E Ext (Flow.t E Ext) -> Effect E Ext (Flow.t E Ext)).

(** C8. [doIf] with [onTrue = noOp] and [onFalse = noOp] is the identity on
    flow builders: in every world, hence for either answer of the decision,
    it resolves to exactly what the unmodified builder resolves to, the same
    flow value (so the same [done], [result], [nextState] or error on every
    execution) or the same failure or defect. The world after resolution
    differs only by the one decision that was drawn. *)
Theorem doIf_noOp_identity _condition previousFlow w0 :
  fst (doIf _condition noOp noOp previousFlow w0) = fst (previousFlow w0)
  /\ snd (doIf _condition noOp noOp previousFlow w0) =
       match fst (previousFlow w0) with
       | Success _ => drawn (snd (previousFlow w0))
       | _ => snd (previousFlow w0)
       end.
Proof.
  destruct (previousFlow w0) as [[prevFlow | e | d] w1] eqn:Hprev; cbn [fst snd].
  - rewrite (doIf_resolves _ _ _ _ _ _ _ Hprev).
    now destruct (conditionMet _).
  - unfold doIf. now rewrite (flatMap_failure _ _ _ _ _ Hprev).
  - unfold doIf. now rewrite (flatMap_die _ _ _ _ _ Hprev).
Qed.

(** *** Flows that draw no decision *)

Lemma firstFlow_consultsNoDecision step :
  (forall args w, randomCalls (snd (Action.handle step args w)) = randomCalls w) ->
  consultsNoDecision (firstFlow step).
Proof.
  intros Hstep executionState w. cbn [firstFlow Flow.execute]. unfold flatMap.
  specialize (Hstep ∅ w).
  destruct (Action.handle step ∅ w) as [[r | e | d] w1]; exact Hstep.
Qed.

Lemma andThenFlow_consultsNoDecision step prevFlow :
  (forall args w, randomCalls (snd (Action.handle step args w)) = randomCalls w) ->
  consultsNoDecision prevFlow ->
  consultsNoDecision (andThenFlow step prevFlow).
Proof.
  intros Hstep Hprev executionState w. cbn [andThenFlow Flow.execute]. unfold flatMap.
  specialize (Hprev executionState w).
  destruct (Flow.execute prevFlow executionState w) as [[pr | e | d] w1];
    cbn [snd] in Hprev; try exact Hprev.
  destruct (FlowIntermediateResult.done pr); [exact Hprev |].
  specialize (Hstep ∅ w1).
  destruct (Action.handle step ∅ w1) as [[r | e | d] w2];
    unfold succeed; cbn [snd] in *; congruence.
Qed.

Lemma andThen_armConsultsNoDecision step :
  (forall args w, randomCalls (snd (Action.handle step args w)) = randomCalls w) ->
  armConsultsNoDecision (andThen step).
Proof.
  intros Hstep prevFlow w flow w' Hprev Hresolve.
  rewrite (andThen_resolves step (succeed prevFlow) w prevFlow w eq_refl) in Hresolve.
  injection Hresolve as <- _. now apply andThenFlow_consultsNoDecision.
Qed.

Lemma noOp_armConsultsNoDecision : armConsultsNoDecision (E := E) (Ext := Ext) noOp.
Proof.
  intros prevFlow w flow w' Hprev Hresolve. unfold noOp, succeed in Hresolve.
  now injection Hresolve as <- _.
Qed.

Lemma doIf_consultsNoDecision _condition onTrue onFalse previousFlow w0 prevFlow w1 flow w2 :
  armConsultsNoDecision onTrue ->
  armConsultsNoDecision onFalse ->
  previousFlow w0 = (Success prevFlow, w1) ->
  consultsNoDecision prevFlow ->
  doIf _condition onTrue onFalse previousFlow w0 = (Success flow, w2) ->
  consultsNoDecision flow.
Proof.
  intros HonTrue HonFalse Hprev Hfree Hresolve.
  rewrite (doIf_resolves _ _ _ _ _ _ _ Hprev) in Hresolve.
  destruct (conditionMet _); [eapply HonTrue | eapply HonFalse]; eassumption.
Qed.

Lemma doIf_armConsultsNoDecision _condition onTrue onFalse :
  armConsultsNoDecision onTrue ->
  armConsultsNoDecision onFalse ->
  armConsultsNoDecision (doIf _condition onTrue onFalse).
Proof.
  intros HonTrue HonFalse prevFlow w flow w' Hprev Hresolve.
  eapply (doIf_consultsNoDecision _ _ _ (succeed prevFlow) w prevFlow w);
    [exact HonTrue | exact HonFalse | reflexivity | exact Hprev | exact Hresolve].
Qed.

(** C7, as the code has it. The decision of a [doIf] is drawn when the flow
    builder is resolved to a flow value, once per resolution, and selects
    which arm builds that flow value. Executing the resulting flow value
    draws no decision: when the upstream flow and the arms draw none
    themselves (as [andThen], [noOp] and nested [doIf] arms over actions
    that do not use [Math.random]), every execution of the flow leaves the
    number of decisions drawn unchanged, so the branch taken is the one
    fixed at resolution. *)
Theorem doIf_decides_at_resolution
    _condition onTrue onFalse previousFlow w0 prevFlow w1 :
  previousFlow w0 = (Success prevFlow, w1) ->
  armConsultsNoDecision onTrue ->
  armConsultsNoDecision onFalse ->
  consultsNoDecision prevFlow ->
  doIf _condition onTrue onFalse previousFlow w0 =
    (if conditionMet (randomTape w1 (randomCalls w1)) then onTrue else onFalse)
      (succeed prevFlow) (drawn w1)
  /\ forall flow w2,
       doIf _condition onTrue onFalse previousFlow w0 = (Success flow, w2) ->
       consultsNoDecision flow.
Proof.
  intros Hprev HonTrue HonFalse Hfree. split.
  - now apply doIf_resolves.
  - intros flow w2 Hresolve.
    now apply (doIf_consultsNoDecision _ _ _ _ _ _ _ _ _ HonTrue HonFalse Hprev Hfree Hresolve).
Qed.

End DoIfProperties.

Section AgentProperties.
Context {E Ext : Type}.
Implicit Types (w : World Ext) (config : AgentConfig.t E Ext).
Implicit Types (capability : Capability E Ext) (maxLoops loopCount : Z).

(** *** The loop, one iteration at a time *)

Lemma dispatch_run capability w :
  dispatch capability w = runCapability capability (pushed (dispatchMessage capability) w).
Proof. destruct capability; reflexivity. Qed.

Lemma agentLoop_exit config maxLoops loopCount w :
  agentLoop config maxLoops 0 loopCount w =
    (Success (budgetExhausted maxLoops), pushed (maxLoopsMessage maxLoops) w).
Proof. reflexivity. Qed.

Lemma agentLoop_step config maxLoops remaining loopCount w :
  agentLoop config maxLoops (S remaining) loopCount w =
    let w1 := pushed (loopMessage loopCount maxLoops) w in
    let len := length (capabilities config) in
    let selectionIndex := selectedIndex config w in
    if decide (len = 0%nat) then (Success noCapabilities, w1)
    else
      match Array_get (capabilities config) selectionIndex with
      | None => (Die (impossibleIndex selectionIndex len), drawn w1)
      | Some capability =>
          match dispatch capability (drawn w1) with
          | (Success result, w2) =>
              if ActionReturn.done result
              then (Success result, pushed (completedMessage result) w2)
              else agentLoop config maxLoops remaining (loopCount + 1) w2
          | (Failure e, w2) => (Failure e, w2)
          | (Die d, w2) => (Die d, w2)
          end
      end.
Proof.
  cbn [agentLoop]. cbv zeta.
  rewrite (flatMap_success _ _ _ _ _ (addMessage_run _ w)).
  destruct (decide (length (capabilities config) = 0%nat)) as [Hlen | Hlen]; [reflexivity |].
  rewrite (flatMap_success _ _ _ _ _ (Math_random_run _)).
  cbn [pushed randomTape randomCalls].
  destruct (Array_get _ _) as [capability |]; [| reflexivity].
  unfold flatMap at 1. unfold succeed at 1.
  unfold flatMap at 1.
  destruct (dispatch capability _) as [[result | e | d] w2]; try reflexivity.
  destruct (ActionReturn.done result); reflexivity.
Qed.

Lemma createAgent_execute config options w :
  Agent.execute (createAgent config) options w =
    agentLoop config (default 10 (AgentOptions.maxLoops options))
      (Z.to_nat (default 10 (AgentOptions.maxLoops options))) 0
      (pushed ("Starting agent: " +:+ AgentConfig.name config) w).
Proof. reflexivity. Qed.

(** The variant of the loop against its guard [loopCount < maxLoops]. *)
Lemma loop_guard maxLoops loopCount :
  (Z.to_nat (maxLoops - loopCount) = 0%nat <-> ~ loopCount < maxLoops)
  /\ (forall remaining,
        Z.to_nat (maxLoops - loopCount) = S remaining ->
        loopCount < maxLoops
        /\ Z.to_nat (maxLoops - (loopCount + 1)) = remaining).
Proof. split; [lia | intros remaining H; lia]. Qed.

Lemma Array_get_None {A} (self : list A) (index : Z) :
  index < 0 \/ Z.of_nat (length self) <= index -> Array_get self index = None.
Proof.
  intros H. unfold Array_get.
  destruct (index <? 0) eqn:Hneg; [reflexivity |].
  destruct (Z.of_nat (length self) <=? index) eqn:Hge; [reflexivity |].
  apply Z.ltb_ge in Hneg. apply Z.leb_gt in Hge. lia.
Qed.

Lemma Array_get_Some_elem {A} (self : list A) (index : Z) (x : A) :
  Array_get self index = Some x -> x ∈ self.
Proof.
  unfold Array_get. destruct (_ || _); [discriminate |].
  intros H. apply list_elem_of_lookup. eauto.
Qed.

(** A value [Math.random()] can return selects an index in range. *)
Lemma selectionIndexOf_in_range (r : Q) (len : nat) :
  (0 <= r)%Q -> (r < 1)%Q -> len <> 0%nat ->
  0 <= selectionIndexOf r len < Z.of_nat len.
Proof.
  intros Hlo Hhi Hlen. unfold selectionIndexOf.
  assert (Hpos : (0 < inject_Z (Z.of_nat len))%Q).
  { rewrite <- (Zlt_Qlt 0). lia. }
  split.
  - rewrite <- (Qfloor_Z 0) at 1. apply Qfloor_resp_le.
    apply Qmult_le_0_compat; [exact Hlo | now apply Qlt_le_weak].
  - rewrite Zlt_Qlt.
    eapply Qle_lt_trans; [apply Qfloor_le |].
    rewrite <- (Qmult_1_l (inject_Z (Z.of_nat len))) at 2.
    now apply Qmult_lt_compat_r.
Qed.

(** C4. For every agent with a non-empty capability set, at every
    iteration of the loop: when the index computed by the selection step
    is outside [0, len), the loop ends the run with a defect ([Effect.die]),
    which is neither a successful result nor a value of the typed error
    channel; so does [Agent.execute] when this happens at its first
    iteration. *)
Theorem agent_out_of_range_selection_dies config maxLoops remaining loopCount options w :
  length (capabilities config) <> 0%nat ->
  (selectedIndex config w < 0
   \/ Z.of_nat (length (capabilities config)) <= selectedIndex config w) ->
  agentLoop config maxLoops (S remaining) loopCount w =
    (Die (impossibleIndex (selectedIndex config w) (length (capabilities config))),
     drawn (pushed (loopMessage loopCount maxLoops) w))
  /\ (0 < default 10 (AgentOptions.maxLoops options) ->
      Agent.execute (createAgent config) options w =
        (Die (impossibleIndex (selectedIndex config w) (length (capabilities config))),
         drawn (pushed (loopMessage 0 (default 10 (AgentOptions.maxLoops options)))
                  (pushed ("Starting agent: " +:+ AgentConfig.name config) w)))).
Proof.
  intros Hlen Hout.
  assert (Hstep : forall maxLoops' remaining' loopCount' w',
            selectedIndex config w' = selectedIndex config w ->
            agentLoop config maxLoops' (S remaining') loopCount' w' =
              (Die (impossibleIndex (selectedIndex config w)
                      (length (capabilities config))),
               drawn (pushed (loopMessage loopCount' maxLoops') w'))).
  { intros maxLoops' remaining' loopCount' w' Hsame.
    rewrite agentLoop_step. cbv zeta. rewrite Hsame.
    destruct (decide _) as [Hzero | _]; [contradiction |].
    now rewrite (Array_get_None _ _ Hout). }
  split.
  - now apply Hstep.
  - intros Hpos. rewrite createAgent_execute.
    destruct (Z.to_nat (default 10 (AgentOptions.maxLoops options))) as [| k] eqn:Hk; [lia |].
    now apply Hstep.
Qed.

Lemma agentLoop_success_done config maxLoops remaining :
  forall loopCount w r w',
    agentLoop config maxLoops remaining loopCount w = (Success r, w') ->
    ActionReturn.done r = true.
Proof.
  induction remaining as [| remaining IH]; intros loopCount w r w' Hrun.
  - rewrite agentLoop_exit in Hrun. now injection Hrun as <- _.
  - rewrite agentLoop_step in Hrun. cbv zeta in Hrun.
    destruct (decide _) as [_ | _]; [now injection Hrun as <- _ |].
    destruct (Array_get _ _) as [capability |]; [| discriminate].
    destruct (dispatch capability _) as [[result | e | d] w2]; try discriminate.
    destruct (ActionReturn.done result) eqn:Hdone.
    + now injection Hrun as <- _.
    + now apply IH in Hrun.
Qed.

Lemma agentLoop_returns_done_result config maxLoops remaining loopCount w capability r w' :
  Array_get (capabilities config) (selectedIndex config w) = Some capability ->
  dispatch capability (drawn (pushed (loopMessage loopCount maxLoops) w)) = (Success r, w') ->
  ActionReturn.done r = true ->
  agentLoop config maxLoops (S remaining) loopCount w =
    (Success r, pushed (completedMessage r) w').
Proof.
  intros Hget Hrun Hdone. rewrite agentLoop_step. cbv zeta.
  destruct (decide _) as [Hzero | _].
  - apply Array_get_Some_elem in Hget.
    destruct (capabilities config); [inversion Hget | discriminate].
  - now rewrite Hget, Hrun, Hdone.
Qed.

End AgentProperties.

Section DoneProperties.
Context {E Ext : Type}.
Implicit Types (w : World Ext) (config : AgentConfig.t E Ext).
Implicit Types (step : Action.t E Ext) (flow prevFlow : Flow.t E Ext).
Implicit Types (previousFlow : Effect E Ext (Flow.t E Ext)).
Implicit Types
  (onTrue onFalse : Effect E Ext (Flow.t E Ext) -> Effect E Ext (Flow.t E Ext)).





(** *** Arms that keep a done result *)








(** C9. Every successful result of [Agent.execute] of an agent built with
    [createAgent] has [done = true], whatever [maxLoops] is: the
    no-capabilities result, the budget-exhausted result and every result
    returned from a dispatched capability carry it. Consequently, when a
    parent agent dispatches to such a sub-agent and the sub-agent succeeds
    (be it by exhausting its budget), the parent's loop returns that result
    in the same iteration. *)
Theorem createAgent_success_is_done config :
  (forall options w r w',
      Agent.execute (createAgent config) options w = (Success r, w') ->
      ActionReturn.done r = true)
  /\ (forall (parent : AgentConfig.t E Ext) maxLoops remaining loopCount w r w',
      Array_get (capabilities parent) (selectedIndex parent w)
        = Some (CapAgent (createAgent config)) ->
      Agent.execute (createAgent config) {| AgentOptions.maxLoops := Some 5 |}
        (pushed ("Delegating to sub-agent: " +:+ AgentConfig.name config)
           (drawn (pushed (loopMessage loopCount maxLoops) w)))
        = (Success r, w') ->
      agentLoop parent maxLoops (S remaining) loopCount w =
        (Success r, pushed (completedMessage r) w')).
Proof.
  assert (Hdone : forall options w r w',
            Agent.execute (createAgent config) options w = (Success r, w') ->
            ActionReturn.done r = true).
  { intros options w r w' Hrun. rewrite createAgent_execute in Hrun.
    now apply agentLoop_success_done in Hrun. }
  split; [exact Hdone |].
  intros parent maxLoops remaining loopCount w r w' Hget Hrun.
  eapply agentLoop_returns_done_result; [exact Hget | | now apply Hdone in Hrun].
  rewrite dispatch_run. exact Hrun.
Qed.

End DoneProperties.

Section BudgetProperties.
Context {E Ext : Type}.
Implicit Types (w : World Ext) (config : AgentConfig.t E Ext).

Lemma agentLoop_never_done config (action : Action.t E Ext) (count : Ext -> nat) maxLoops :
  capabilities config = [CapAction action] ->
  alwaysContinues action count ->
  forall remaining loopCount w,
    tapeInRange w ->
    exists w',
      agentLoop config maxLoops remaining loopCount w
        = (Success (budgetExhausted maxLoops), w')
      /\ count (services w') = (count (services w) + remaining)%nat.
Proof.
  intros Hcaps Haction.
  induction remaining as [| remaining IH]; intros loopCount w Htape.
  - eexists. rewrite agentLoop_exit. split; [reflexivity | cbn; lia].
  - rewrite agentLoop_step. cbv zeta. unfold selectedIndex. rewrite Hcaps. cbn [length].
    destruct (decide (1%nat = 0%nat)) as [Hzero | _]; [discriminate |].
    destruct (Htape (randomCalls w)) as [Hlo Hhi].
    pose proof (selectionIndexOf_in_range _ 1 Hlo Hhi ltac:(discriminate)) as Hrange.
    assert (Hindex : selectionIndexOf (randomTape w (randomCalls w)) 1 = 0) by lia.
    rewrite Hindex.
    change (Array_get [CapAction action] 0) with (Some (CapAction action)).
    cbv beta iota. rewrite dispatch_run.
    destruct (Haction (pushed (dispatchMessage (CapAction action))
                         (drawn (pushed (loopMessage loopCount maxLoops) w))))
      as (r & w2 & Hrun & Hdone & Htape2 & Hcount).
    cbn [runCapability]. rewrite Hrun, Hdone.
    destruct (IH (loopCount + 1) w2) as (w' & Hloop & Htotal).
    { intros i. rewrite Htape2. exact (Htape i). }
    exists w'. split; [exact Hloop |].
    rewrite Htotal, Hcount. cbn [pushed drawn services]. lia.
Qed.

(** C3. For every [maxLoops = N >= 1], an agent whose single capability is
    one action that always succeeds with [done = false] runs that action
    exactly [N] times (the count of its runs grows by [N]) and then ends
    successfully, with neither an error nor a defect, returning the
    budget-exhausted result [{done: true, result: "Agent reached maximum
    loops (N)"}]. The tape holds values [Math.random()] can return. *)
Theorem agent_exhausts_budget_after_maxLoops
    config (action : Action.t E Ext) (count : Ext -> nat) (N : Z) w :
  capabilities config = [CapAction action] ->
  alwaysContinues action count ->
  tapeInRange w ->
  1 <= N ->
  exists w',
    Agent.execute (createAgent config) {| AgentOptions.maxLoops := Some N |} w
      = (Success (budgetExhausted N), w')
    /\ count (services w') = (count (services w) + Z.to_nat N)%nat.
Proof.
  intros Hcaps Haction Htape HN. rewrite createAgent_execute.
  cbn [AgentOptions.maxLoops default].
  destruct (agentLoop_never_done config action count N Hcaps Haction (Z.to_nat N) 0
              (pushed ("Starting agent: " +:+ AgentConfig.name config) w))
    as (w' & Hloop & Hcount).
  - exact Htape.
  - exists w'. split; [exact Hloop | exact Hcount].
Qed.

End BudgetProperties.

Section StoreProperties.
Context {E Ext : Type}.
Implicit Types (w : World Ext) (config : AgentConfig.t E Ext) (l : loc).

Lemma readArray_pushArray l x (h : Heap) :
  readArray (pushArray l x h) l = readArray h l ++ [x].
Proof. unfold pushArray, readArray at 1. now rewrite lookup_insert_eq. Qed.

Lemma history_pushed message w :
  history (pushed message w) = history w ++ [message].
Proof. unfold history, deref. cbn [pushed conversationHistory arrays]. apply readArray_pushArray. Qed.

(** C6, as the code has it. [getHistory] returns the store's history array
    itself, by reference, and not a copy: after a later [addMessage], the
    sequence read through the previously returned reference is the one it
    held when [getHistory] returned, extended by the appended message. *)
Theorem getHistory_returns_live_array w message l w1 u w2 :
  getHistory (E := E) w = (Success l, w1) ->
  addMessage (E := E) message w1 = (Success u, w2) ->
  deref w2 l = deref w1 l ++ [message].
Proof.
  intros Hget Hadd. unfold getHistory in Hget. injection Hget as <- <-.
  rewrite addMessage_run in Hadd. injection Hadd as _ <-.
  apply history_pushed.
Qed.

Lemma agentLoop_store config (P : string -> Prop) maxLoops :
  (forall capability,
      capability ∈ capabilities config -> storeGrowsBy P (runCapability capability)) ->
  forall remaining loopCount w,
    conversationHistory (snd (agentLoop config maxLoops remaining loopCount w))
      = conversationHistory w
    /\ executionState (snd (agentLoop config maxLoops remaining loopCount w))
       = executionState w
    /\ exists trace completion,
         history (snd (agentLoop config maxLoops remaining loopCount w))
           = history w ++ trace ++ completion
         /\ Forall (fun message => FixedTrace config maxLoops message \/ P message) trace
         /\ (completion = []
             \/ exists r,
                  fst (agentLoop config maxLoops remaining loopCount w) = Success r
                  /\ completion = [completedMessage r]).
Proof.
  intros Hframe.
  induction remaining as [| remaining IH]; intros loopCount w.
  - rewrite agentLoop_exit. cbn [snd fst]. repeat split.
    exists [maxLoopsMessage maxLoops], []. rewrite history_pushed, app_nil_r.
    split; [reflexivity |]. split; [| now left].
    repeat constructor.
  - rewrite agentLoop_step. cbv zeta.
    destruct (decide _) as [_ | _].
    { cbn [snd fst]. repeat split.
      exists [loopMessage loopCount maxLoops], []. rewrite history_pushed, app_nil_r.
      split; [reflexivity |]. split; [| now left].
      repeat constructor. }
    destruct (Array_get _ _) as [capability |] eqn:Hget.
    2:{ cbn [snd fst]. repeat split.
        exists [loopMessage loopCount maxLoops], [].
        change (history (drawn (pushed (loopMessage loopCount maxLoops) w)))
          with (history (pushed (loopMessage loopCount maxLoops) w)).
        rewrite history_pushed, app_nil_r.
        split; [reflexivity |]. split; [| now left].
        repeat constructor. }
    pose proof (Array_get_Some_elem _ _ _ Hget) as Hin.
    rewrite dispatch_run.
    set (w1 := pushed (dispatchMessage capability)
                 (drawn (pushed (loopMessage loopCount maxLoops) w))).
    assert (Hhist1 : history w1 = history w ++ [loopMessage loopCount maxLoops;
                                                dispatchMessage capability]).
    { unfold w1. rewrite history_pushed.
      change (history (drawn (pushed (loopMessage loopCount maxLoops) w)))
        with (history (pushed (loopMessage loopCount maxLoops) w)).
      rewrite history_pushed, <- app_assoc. reflexivity. }
    assert (Href1 : conversationHistory w1 = conversationHistory w) by reflexivity.
    assert (Hctx1 : executionState w1 = executionState w) by reflexivity.
    destruct (Hframe capability Hin w1) as (Href2 & Hctx2 & added & Hhist2 & Hadded).
    assert (Hfixed : Forall (fun message => FixedTrace config maxLoops message \/ P message)
                       ([loopMessage loopCount maxLoops; dispatchMessage capability]
                        ++ added)).
    { apply Forall_app. split.
      - repeat constructor. exact Hin.
      - eapply Forall_impl; [exact Hadded | intros message HP; now right]. }
    clearbody w1.
    destruct (runCapability capability w1) as [[result | e | d] w2]; cbn [snd] in *.
    + destruct (ActionReturn.done result).
      * cbn [snd fst]. split; [exact (eq_trans Href2 Href1) |].
        split; [exact (eq_trans Hctx2 Hctx1) |].
        exists ([loopMessage loopCount maxLoops; dispatchMessage capability] ++ added),
               [completedMessage result].
        rewrite history_pushed, Hhist2, Hhist1.
        split; [now rewrite <- !app_assoc |].
        split; [exact Hfixed | right; now exists result].
      * destruct (IH (loopCount + 1) w2)
          as (Href3 & Hctx3 & trace & completion & Hhist3 & Htrace & Hcompletion).
        split; [congruence |]. split; [congruence |].
        exists (([loopMessage loopCount maxLoops; dispatchMessage capability] ++ added)
                ++ trace), completion.
        rewrite Hhist3, Hhist2, Hhist1.
        split; [now rewrite <- !app_assoc |]. split; [| exact Hcompletion].
        apply Forall_app. split; [exact Hfixed | exact Htrace].
    + cbn [fst]. split; [congruence |]. split; [congruence |].
      exists ([loopMessage loopCount maxLoops; dispatchMessage capability] ++ added), [].
      rewrite Hhist2, Hhist1.
      split; [now rewrite app_nil_r, <- !app_assoc |]. split; [exact Hfixed | now left].
    + cbn [fst]. split; [congruence |]. split; [congruence |].
      exists ([loopMessage loopCount maxLoops; dispatchMessage capability] ++ added), [].
      rewrite Hhist2, Hhist1.
      split; [now rewrite app_nil_r, <- !app_assoc |]. split; [exact Hfixed | now left].
Qed.

(** C10. Across one [Agent.execute] call, the store's context is unchanged
    (the loop never calls [updateState]) and the history grows exactly by a
    sequence of the loop's fixed trace messages (start, loop, dispatch,
    budget), none of which carries a capability's result, interleaved with
    whatever the dispatched capabilities append themselves (messages that
    satisfy [P]; none, when they leave the store alone), followed by at most
    one completion message, which carries the result the call returns. So
    the loop appends the result string of a capability that returned
    [done = false] nowhere; nor is it an argument of the next iteration,
    which receives only the loop counter and the world. *)
Theorem agent_discards_unfinished_results config (P : string -> Prop) options w :
  (forall capability,
      capability ∈ capabilities config -> storeGrowsBy P (runCapability capability)) ->
  executionState (snd (Agent.execute (createAgent config) options w)) = executionState w
  /\ exists trace completion,
       history (snd (Agent.execute (createAgent config) options w))
         = history w ++ trace ++ completion
       /\ Forall (fun message =>
                    FixedTrace config (default 10 (AgentOptions.maxLoops options)) message
                    \/ P message) trace
       /\ (completion = []
           \/ exists r,
                fst (Agent.execute (createAgent config) options w) = Success r
                /\ ActionReturn.done r = true
                /\ completion = [completedMessage r]).
Proof.
  intros Hframe. rewrite createAgent_execute.
  set (maxLoops := default 10 (AgentOptions.maxLoops options)).
  set (w0 := pushed ("Starting agent: " +:+ AgentConfig.name config) w).
  destruct (agentLoop_store config P maxLoops Hframe (Z.to_nat maxLoops) 0 w0)
    as (_ & Hctx & trace & completion & Hhist & Htrace & Hcompletion).
  split; [exact Hctx |].
  exists (("Starting agent: " +:+ AgentConfig.name config) :: trace), completion.
  split; [| split].
  - rewrite Hhist. unfold w0. rewrite history_pushed, <- app_assoc. reflexivity.
  - constructor; [left; constructor | exact Htrace].
  - destruct Hcompletion as [-> | (r & Hfst & ->)]; [now left | right].
    exists r. repeat split; [exact Hfst |].
    destruct (agentLoop config maxLoops (Z.to_nat maxLoops) 0 w0) as [o w'] eqn:Hrun.
    cbn [fst] in Hfst. subst o. now apply agentLoop_success_done in Hrun.
Qed.

(** An agent built with [createAgent] is itself such a capability: nesting
    agents only ever adds trace and completion messages. *)
Lemma createAgent_storeGrowsBy config (P : string -> Prop) options :
  (forall capability,
      capability ∈ capabilities config -> storeGrowsBy P (runCapability capability)) ->
  storeGrowsBy
    (fun message =>
       FixedTrace config (default 10 (AgentOptions.maxLoops options)) message
       \/ P message
       \/ exists r, message = completedMessage r)
    (Agent.execute (createAgent config) options).
Proof.
  intros Hframe w. rewrite createAgent_execute.
  set (maxLoops := default 10 (AgentOptions.maxLoops options)).
  set (w0 := pushed ("Starting agent: " +:+ AgentConfig.name config) w).
  destruct (agentLoop_store config P maxLoops Hframe (Z.to_nat maxLoops) 0 w0)
    as (Href & Hctx & trace & completion & Hhist & Htrace & Hcompletion).
  split; [exact Href |]. split; [exact Hctx |].
  exists ((("Starting agent: " +:+ AgentConfig.name config) :: trace) ++ completion).
  split.
  - rewrite Hhist. unfold w0. rewrite history_pushed, <- app_assoc. reflexivity.
  - apply Forall_app. split.
    + constructor; [left; constructor |].
      eapply Forall_impl; [exact Htrace |]. intros message [H | H]; auto.
    + destruct Hcompletion as [-> | (r & _ & ->)]; [constructor |].
      constructor; [| constructor]. right. right. now exists r.
Qed.

End StoreProperties.

(** * The properties at concrete inputs *)

Lemma tapeOf_nil_in_range (ext : nat) :
  tapeInRange (initialWorld (tapeOf [] (1 # 3)%Q) ext).
Proof.
  intros i. unfold initialWorld, tapeOf. cbn [randomTape].
  destruct i; split; reflexivity || discriminate.
Qed.

Lemma askUserForCancellationReason_no_draw :
  forall args (w : World nat),
    randomCalls (snd (Action.handle (E := Empty_set) askUserForCancellationReason args w))
      = randomCalls w.
Proof. intros args w. reflexivity. Qed.

Lemma emailUserAboutCancellation_no_draw :
  forall args (w : World nat),
    randomCalls (snd (Action.handle (E := Empty_set) emailUserAboutCancellation args w))
      = randomCalls w.
Proof. intros args w. reflexivity. Qed.

Lemma stubPending_alwaysContinues : alwaysContinues stubPending (fun n => n).
Proof. intros w. eexists _, _. repeat split. Qed.

(** C1 at a call-counting stub: the upstream stub ran once, the downstream
    stub did not run. *)
Lemma andThen_short_circuits_on_done_witness :
  let w := initialWorld (tapeOf [] (1 # 3)%Q) 0%nat in
  exists flow,
    andThen stubNeedsQuery (first stubDone) w = (Success flow, w)
    /\ Flow.execute flow (JSObject []) w =
         (Success {| FlowIntermediateResult.done := true;
                     FlowIntermediateResult.result := "hi";
                     FlowIntermediateResult.nextState := Some (JSObject []) |},
          bumpServices w).
Proof.
  intros w.
  apply (andThen_short_circuits_on_done stubNeedsQuery (first stubDone) w
           (firstFlow stubDone) w (JSObject []) w);
    reflexivity.
Defined.

(** C5 at a stub with a required field, called with [{}]. *)
Lemma createAction_parse_error_skips_execute_witness :
  let w := initialWorld (tapeOf [] (1 # 3)%Q) 0%nat in
  Action.handle stubNeedsQuery ∅ w = (Failure (ParseError "query is missing"), w).
Proof.
  intros w.
  apply (createAction_parse_error_skips_execute
           (countingStubConfig "SearchLogs" (Struct [("query", Schema_String)])
              {| ActionReturn.done := false; ActionReturn.result := "logs" |})
           ∅ "query is missing" w).
  vm_compute. reflexivity.
Defined.


(** C3 with [maxLoops = 3]: the stub ran three times. *)
Lemma agent_exhausts_budget_after_maxLoops_witness :
  let w := initialWorld (tapeOf [] (1 # 3)%Q) 0%nat in
  exists w',
    Agent.execute (createAgent pollingAgent) {| AgentOptions.maxLoops := Some 3 |} w
      = (Success {| ActionReturn.done := true;
                    ActionReturn.result := "Agent reached maximum loops (3)" |}, w')
    /\ services w' = 3%nat.
Proof.
  intros w.
  apply (agent_exhausts_budget_after_maxLoops pollingAgent stubPending (fun n => n) 3 w).
  - reflexivity.
  - exact stubPending_alwaysContinues.
  - apply tapeOf_nil_in_range.
  - lia.
Defined.

(** C4 with a tape value outside what [Math.random()] can return. *)
Lemma agent_out_of_range_selection_dies_witness :
  let w := initialWorld (tapeOf [] (3 # 2)%Q) 0%nat in
  agentLoop pollingAgent 10 (S 9) 0 w =
    (Die "Impossible: index 1 out of bounds for array of length 1",
     drawn (pushed "Agent loop 1/10" w))
  /\ Agent.execute (createAgent pollingAgent) {| AgentOptions.maxLoops := None |} w =
       (Die "Impossible: index 1 out of bounds for array of length 1",
        drawn (pushed "Agent loop 1/10" (pushed "Starting agent: Poller" w))).
Proof.
  intros w.
  destruct (agent_out_of_range_selection_dies pollingAgent 10 9%nat 0
              {| AgentOptions.maxLoops := None |} w) as [Hloop Hexecute].
  - vm_compute. discriminate.
  - right. vm_compute. discriminate.
  - split; [exact Hloop | apply Hexecute; reflexivity].
Defined.

(** C6, the claim as stated fails: the sequence read through the reference
    [getHistory] returned is empty before the [addMessage] and holds the
    message after it. *)
Lemma getHistory_snapshot_counterexample :
  let w := initialWorld (tapeOf [] (1 # 3)%Q) 0%nat in
  exists l w1 w2,
    getHistory (E := Empty_set) w = (Success l, w1)
    /\ addMessage (E := Empty_set) "Framework initialized successfully!" w1 = (Success tt, w2)
    /\ deref w1 l = []
    /\ deref w2 l = ["Framework initialized successfully!"]
    /\ deref w2 l <> deref w1 l.
Proof.
  intros w. eexists _, _, _.
  split; [reflexivity |]. split; [reflexivity |].
  split; [reflexivity |]. split; [reflexivity |].
  vm_compute. discriminate.
Qed.

(** C6 as amended, at the same input. *)
Lemma getHistory_returns_live_array_witness :
  let w := initialWorld (tapeOf [] (1 # 3)%Q) 0%nat in
  deref (pushed "Framework initialized successfully!" w) (conversationHistory w)
    = deref w (conversationHistory w) ++ ["Framework initialized successfully!"].
Proof.
  intros w.
  apply (getHistory_returns_live_array (E := Empty_set) w
           "Framework initialized successfully!" (conversationHistory w) w tt
           (pushed "Framework initialized successfully!" w));
    reflexivity.
Defined.

(** C7, the claim as stated fails: the flow resolved from a [doIf] is
    executed twice; neither execution draws a decision (the count stays at
    the one drawn at resolution), and the second execution still takes the
    [onTrue] arm although the decision that would be drawn then is false. *)
Lemma doIf_reevaluation_counterexample :
  let w := initialWorld (tapeOf [(9 # 10)%Q] (1 # 10)%Q) 0%nat in
  let sent := "Cancellation confirmation email sent. We're sorry to see you go!" in
  exists flow w1 r1 w2 r2 w3,
    stillWantsToCancel w = (Success flow, w1)
    /\ Flow.execute flow (JSObject []) w1 = (Success r1, w2)
    /\ Flow.execute flow (JSObject []) w2 = (Success r2, w3)
    /\ randomCalls w1 = 1%nat
    /\ randomCalls w2 = 1%nat
    /\ randomCalls w3 = 1%nat
    /\ conditionMet (randomTape w2 (randomCalls w2)) = false
    /\ FlowIntermediateResult.result r1 = sent
    /\ FlowIntermediateResult.result r2 = sent.
Proof.
  intros w sent. eexists _, _, _, _, _, _.
  split; [reflexivity |]. split; [reflexivity |]. split; [reflexivity |].
  repeat split.
Qed.

(** C7 as amended, at the same flow. *)
Lemma doIf_decides_at_resolution_witness :
  let w := initialWorld (tapeOf [(9 # 10)%Q] (1 # 10)%Q) 0%nat in
  stillWantsToCancel w =
    andThen emailUserAboutCancellation
      (succeed (firstFlow askUserForCancellationReason)) (drawn w)
  /\ forall flow w2, stillWantsToCancel w = (Success flow, w2) -> consultsNoDecision flow.
Proof.
  intros w.
  apply (doIf_decides_at_resolution "The user still wants to cancel"
           (andThen emailUserAboutCancellation) noOp
           (first askUserForCancellationReason) w
           (firstFlow askUserForCancellationReason) w).
  - reflexivity.
  - apply andThen_armConsultsNoDecision, emailUserAboutCancellation_no_draw.
  - apply noOp_armConsultsNoDecision.
  - apply firstFlow_consultsNoDecision, askUserForCancellationReason_no_draw.
Defined.

(** C9 at a parent whose only capability is a sub-agent that never
    finishes: the sub-agent exhausts its budget of 5, and the parent returns
    that result from its first iteration. *)
Lemma createAgent_success_is_done_witness :
  let w := initialWorld (tapeOf [] (1 # 3)%Q) 0%nat in
  let sub :=
    Agent.execute (createAgent pollingAgent) {| AgentOptions.maxLoops := Some 5 |}
      (pushed "Delegating to sub-agent: Poller" (drawn (pushed "Agent loop 1/10" w))) in
  ActionReturn.done (budgetExhausted 5) = true
  /\ agentLoop parentAgent 10 (S 9) 0 w =
       (Success (budgetExhausted 5),
        pushed "Completed with result: Agent reached maximum loops (5)" (snd sub)).
Proof.
  intros w sub.
  destruct (createAgent_success_is_done pollingAgent) as [Hdone Hparent].
  split.
  - apply (Hdone {| AgentOptions.maxLoops := Some 5 |}
             (pushed "Delegating to sub-agent: Poller" (drawn (pushed "Agent loop 1/10" w)))
             (budgetExhausted 5) (snd sub)).
    vm_compute. reflexivity.
  - apply (Hparent parentAgent 10 9%nat 0 w (budgetExhausted 5) (snd sub)).
    + reflexivity.
    + vm_compute. reflexivity.
Defined.

Lemma pollingAgent_storeUntouched capability :
  capability ∈ capabilities pollingAgent ->
  storeGrowsBy (fun _ => False) (runCapability capability).
Proof.
  intros Hin. apply list_elem_of_singleton in Hin. subst capability.
  intros w. split; [reflexivity |]. split; [reflexivity |].
  exists []. split; [| constructor].
  now rewrite app_nil_r.
Qed.

(** C10 at the polling agent with [maxLoops = 2]. *)
Lemma agent_discards_unfinished_results_witness :
  let w := initialWorld (tapeOf [] (1 # 3)%Q) 0%nat in
  let w' := snd (Agent.execute (createAgent pollingAgent)
                   {| AgentOptions.maxLoops := Some 2 |} w) in
  executionState w' = executionState w
  /\ exists trace completion,
       history w' = history w ++ trace ++ completion
       /\ Forall (fun message => FixedTrace pollingAgent 2 message \/ False) trace
       /\ (completion = []
           \/ exists r,
                fst (Agent.execute (createAgent pollingAgent)
                       {| AgentOptions.maxLoops := Some 2 |} w) = Success r
                /\ ActionReturn.done r = true
                /\ completion = [completedMessage r]).
Proof.
  intros w w'.
  apply (agent_discards_unfinished_results pollingAgent (fun _ => False)
           {| AgentOptions.maxLoops := Some 2 |} w).
  exact pollingAgent_storeUntouched.
Defined.

(** The history of that run: the result ["pending"] appears nowhere. *)
Example pollingAgent_history :
  history (snd (Agent.execute (createAgent pollingAgent)
                  {| AgentOptions.maxLoops := Some 2 |}
                  (initialWorld (tapeOf [] (1 # 3)%Q) 0%nat)))
  = ["Starting agent: Poller";
     "Agent loop 1/2"; "Executing action: Poll";
     "Agent loop 2/2"; "Executing action: Poll";
     "Agent reached max loops (2)"].
Proof. vm_compute. reflexivity. Qed.

(** The store a fresh [AgentStateService] starts from. *)
Example AgentStateService_Default_initial (tape : nat -> Q) :
  snd (AgentStateService_Default (E := Empty_set) (mkWorld ∅ 0%nat ∅ tape 0%nat 0%nat))
  = initialWorld tape 0%nat.
Proof. reflexivity. Qed.

(** [supportAgent] can only select [respondAction], which it calls with
    [{}]: the required [response] is missing and the run fails with a
    [ParseError] in its first iteration. *)
Example supportAgent_parse_error :
  fst (Agent.execute (createAgent supportAgent) {| AgentOptions.maxLoops := Some 5 |}
         (initialWorld (tapeOf [] (1 # 3)%Q) 0%nat))
  = Failure (ParseError "response is missing").
Proof. vm_compute. reflexivity. Qed.

(** * Further properties of the module *)

Section AgentEdgeProperties.
Context {E Ext : Type}.
Implicit Types (w : World Ext) (config : AgentConfig.t E Ext).
Implicit Types (capability : Capability E Ext) (maxLoops loopCount : Z).

Lemma Array_get_lookup {A} (self : list A) (i : nat) (x : A) :
  self !! i = Some x -> Array_get self (Z.of_nat i) = Some x.
Proof.
  intros Hlookup. pose proof (lookup_lt_Some _ _ _ Hlookup) as Hlt.
  unfold Array_get.
  destruct (Z.of_nat i <? 0) eqn:Hneg; [apply Z.ltb_lt in Hneg; lia |].
  destruct (Z.of_nat (length self) <=? Z.of_nat i) eqn:Hge; [apply Z.leb_le in Hge; lia |].
  cbn [orb]. now rewrite Nat2Z.id.
Qed.

(** With the exact product of [selectionIndexOf], a draw in [0, 1) selects
    a member of a non-empty candidate set. *)
Lemma selection_in_range config w :
  tapeInRange w ->
  capabilities config <> [] ->
  exists capability,
    Array_get (capabilities config) (selectedIndex config w) = Some capability.
Proof.
  intros Htape Hcaps.
  destruct (Htape (randomCalls w)) as [Hlo Hhi].
  assert (Hlen : length (capabilities config) <> 0%nat).
  { destruct (capabilities config); [contradiction | discriminate]. }
  pose proof (selectionIndexOf_in_range _ _ Hlo Hhi Hlen) as Hrange.
  fold (selectedIndex config w) in Hrange.
  destruct (lookup_lt_is_Some_2 (capabilities config)
              (Z.to_nat (selectedIndex config w)) ltac:(lia)) as [capability Hlookup].
  exists capability. apply Array_get_lookup in Hlookup.
  now rewrite Z2Nat.id in Hlookup by lia.
Qed.

(** X1. With a budget of zero or less, [Agent.execute] returns the
    budget-exhausted result at once: it records the start and the budget
    messages only, selects nothing and runs no capability, even when the
    agent has no capabilities at all. *)
Theorem agent_without_budget_returns_at_once config options w :
  default 10 (AgentOptions.maxLoops options) <= 0 ->
  Agent.execute (createAgent config) options w =
    (Success (budgetExhausted (default 10 (AgentOptions.maxLoops options))),
     pushed (maxLoopsMessage (default 10 (AgentOptions.maxLoops options)))
       (pushed ("Starting agent: " +:+ AgentConfig.name config) w)).
Proof.
  intros Hbudget. rewrite createAgent_execute.
  replace (Z.to_nat (default 10 (AgentOptions.maxLoops options))) with 0%nat by lia.
  apply agentLoop_exit.
Qed.

(** X2. An agent without capabilities and with a positive budget returns
    ["No capabilities available"] in its first iteration: after the start
    and the first loop message, without drawing a selection and without a
    completion message. *)
Theorem agent_without_capabilities_returns_at_once config options w :
  capabilities config = [] ->
  0 < default 10 (AgentOptions.maxLoops options) ->
  Agent.execute (createAgent config) options w =
    (Success noCapabilities,
     pushed (loopMessage 0 (default 10 (AgentOptions.maxLoops options)))
       (pushed ("Starting agent: " +:+ AgentConfig.name config) w)).
Proof.
  intros Hcaps Hbudget. rewrite createAgent_execute.
  destruct (Z.to_nat (default 10 (AgentOptions.maxLoops options))) as [| k] eqn:Hk; [lia |].
  rewrite agentLoop_step. cbv zeta. rewrite Hcaps. reflexivity.
Qed.

Lemma agentLoop_capability_not_success
    config maxLoops remaining loopCount w capability (o : Exit E ActionReturn.t) w' :
  Array_get (capabilities config) (selectedIndex config w) = Some capability ->
  runCapability capability
    (pushed (dispatchMessage capability)
       (drawn (pushed (loopMessage loopCount maxLoops) w))) = (o, w') ->
  (forall r, o <> Success r) ->
  agentLoop config maxLoops (S remaining) loopCount w = (o, w').
Proof.
  intros Hget Hrun Hnot. rewrite agentLoop_step. cbv zeta.
  destruct (decide _) as [Hzero | _].
  { apply Array_get_Some_elem in Hget.
    destruct (capabilities config); [inversion Hget | discriminate]. }
  rewrite Hget, dispatch_run, Hrun.
  destruct o as [r | e | d]; [now contradiction (Hnot r) | reflexivity | reflexivity].
Qed.

(** X4. A failure or a defect of the dispatched capability ends the loop at
    that iteration and is the outcome of the run unchanged: the same error
    or defect, in the world the capability left, with no retry and no
    further message recorded. This holds at every iteration, and so for
    [Agent.execute] at its first. *)
Theorem agent_propagates_capability_failure
    config maxLoops remaining loopCount options w capability
    (o : Exit E ActionReturn.t) :
  Array_get (capabilities config) (selectedIndex config w) = Some capability ->
  (forall r, o <> Success r) ->
  (forall w',
      runCapability capability
        (pushed (dispatchMessage capability)
           (drawn (pushed (loopMessage loopCount maxLoops) w))) = (o, w') ->
      agentLoop config maxLoops (S remaining) loopCount w = (o, w'))
  /\ (forall w',
        0 < default 10 (AgentOptions.maxLoops options) ->
        runCapability capability
          (pushed (dispatchMessage capability)
             (drawn (pushed (loopMessage 0 (default 10 (AgentOptions.maxLoops options)))
                       (pushed ("Starting agent: " +:+ AgentConfig.name config) w))))
          = (o, w') ->
        Agent.execute (createAgent config) options w = (o, w')).
Proof.
  intros Hget Hnot. split.
  - intros w' Hrun. now apply (agentLoop_capability_not_success _ _ _ _ _ capability).
  - intros w' Hbudget Hrun. rewrite createAgent_execute.
    destruct (Z.to_nat (default 10 (AgentOptions.maxLoops options))) as [| k] eqn:Hk; [lia |].
    now apply (agentLoop_capability_not_success _ _ _ _ _ capability).
Qed.

(** X5. The loop calls every action it selects with [{}]. So an agent all
    of whose capabilities are actions with a parameter schema that rejects
    [{}] (as [logsAgent], [paymentAgent] and [supportAgent] are) fails with a
    [ParseError] in its first iteration, whichever capability is selected,
    before any action body runs. *)
Theorem agent_fails_on_required_parameters config options w :
  capabilities config <> [] ->
  (forall capability,
      capability ∈ capabilities config -> rejectsEmptyArguments capability) ->
  tapeInRange w ->
  0 < default 10 (AgentOptions.maxLoops options) ->
  exists capability error,
    capability ∈ capabilities config
    /\ Agent.execute (createAgent config) options w =
         (Failure (ParseError error),
          pushed (dispatchMessage capability)
            (drawn (pushed (loopMessage 0 (default 10 (AgentOptions.maxLoops options)))
                      (pushed ("Starting agent: " +:+ AgentConfig.name config) w)))).
Proof.
  intros Hcaps Hreject Htape Hbudget. rewrite createAgent_execute.
  set (w0 := pushed ("Starting agent: " +:+ AgentConfig.name config) w).
  destruct (selection_in_range config w0 Htape Hcaps) as [capability Hget].
  pose proof (Array_get_Some_elem _ _ _ Hget) as Hin.
  destruct (Hreject capability Hin) as (actionConfig & error & -> & Hdecode).
  exists (CapAction (createAction actionConfig)), error. split; [exact Hin |].
  destruct (Z.to_nat (default 10 (AgentOptions.maxLoops options))) as [| k] eqn:Hk; [lia |].
  apply (agentLoop_capability_not_success config _ k 0 w0 _ _ _ Hget); [| discriminate].
  cbn [runCapability createAction Action.handle].
  apply flatMap_failure. unfold decodeOrParseError. now rewrite Hdecode.
Qed.

End AgentEdgeProperties.

Section AgentStructureProperties.
Context {E Ext : Type}.
Implicit Types (w : World Ext) (config parent sub : AgentConfig.t E Ext).
Implicit Types (capability : Capability E Ext) (maxLoops loopCount : Z).

(** X6. A sub-agent is always run with a budget of 5, whatever the budget
    of its parent. A parent whose single capability is a sub-agent whose
    single action never completes therefore runs that action exactly 5
    times, and returns the sub-agent's budget-exhausted result from its own
    first iteration. *)
Theorem parent_agent_runs_sub_agent_five_times
    parent sub (action : Action.t E Ext) (count : Ext -> nat) options w :
  capabilities parent = [CapAgent (createAgent sub)] ->
  capabilities sub = [CapAction action] ->
  alwaysContinues action count ->
  tapeInRange w ->
  0 < default 10 (AgentOptions.maxLoops options) ->
  exists w',
    Agent.execute (createAgent parent) options w = (Success (budgetExhausted 5), w')
    /\ count (services w') = (count (services w) + 5)%nat.
Proof.
  intros Hparent Hsub Haction Htape Hbudget. rewrite createAgent_execute.
  destruct (Z.to_nat (default 10 (AgentOptions.maxLoops options))) as [| k] eqn:Hk; [lia |].
  set (N := default 10 (AgentOptions.maxLoops options)).
  set (w0 := pushed ("Starting agent: " +:+ AgentConfig.name parent) w).
  assert (Hget : Array_get (capabilities parent) (selectedIndex parent w0)
                 = Some (CapAgent (createAgent sub))).
  { destruct (Htape (randomCalls w0)) as [Hlo Hhi].
    pose proof (selectionIndexOf_in_range (randomTape w0 (randomCalls w0)) 1
                  Hlo Hhi ltac:(discriminate)) as Hrange.
    unfold selectedIndex. rewrite Hparent. cbn [length].
    replace (selectionIndexOf (randomTape w0 (randomCalls w0)) 1) with 0 by lia.
    reflexivity. }
  set (w1 := pushed (dispatchMessage (CapAgent (createAgent sub)))
               (drawn (pushed (loopMessage 0 N) w0))).
  destruct (agentLoop_never_done sub action count 5 Hsub Haction 5 0
              (pushed ("Starting agent: " +:+ AgentConfig.name sub) w1))
    as (w' & Hloop & Hcount); [exact Htape |].
  exists (pushed (completedMessage (budgetExhausted 5)) w'). split.
  - apply (agentLoop_returns_done_result parent N k 0 w0 _ _ _ Hget); [| reflexivity].
    rewrite dispatch_run. fold w1. cbn [runCapability].
    rewrite createAgent_execute. exact Hloop.
  - cbn [pushed services]. exact Hcount.
Qed.

(** X7. The candidate set lists the actions first, then the workflows,
    then the sub-agents, each in declared order: index [i] selects the
    [i]-th action, index [#actions + i] the [i]-th workflow and index
    [#actions + #workflows + i] the [i]-th sub-agent. *)
Theorem capabilities_are_indexed_in_declared_order config (i : nat) :
  (forall action,
      default [] (AgentConfig.actions config) !! i = Some action ->
      Array_get (capabilities config) (Z.of_nat i) = Some (CapAction action))
  /\ (forall workflow,
        default [] (AgentConfig.workflows config) !! i = Some workflow ->
        Array_get (capabilities config)
          (Z.of_nat (length (default [] (AgentConfig.actions config)) + i))
        = Some (CapWorkflow workflow))
  /\ (forall agent,
        default [] (AgentConfig.agents config) !! i = Some agent ->
        Array_get (capabilities config)
          (Z.of_nat (length (default [] (AgentConfig.actions config))
                     + length (default [] (AgentConfig.workflows config)) + i))
        = Some (CapAgent agent)).
Proof.
  unfold capabilities. split; [| split].
  - intros action Hlookup. apply Array_get_lookup.
    apply lookup_app_l_Some. now rewrite list_lookup_fmap, Hlookup.
  - intros workflow Hlookup. apply Array_get_lookup.
    rewrite lookup_app_r by (rewrite length_fmap; lia).
    rewrite length_fmap.
    replace (length (default [] (AgentConfig.actions config)) + i
             - length (default [] (AgentConfig.actions config)))%nat with i by lia.
    apply lookup_app_l_Some. now rewrite list_lookup_fmap, Hlookup.
  - intros agent Hlookup. apply Array_get_lookup.
    rewrite lookup_app_r by (rewrite length_fmap; lia).
    rewrite lookup_app_r by (rewrite !length_fmap; lia).
    rewrite !length_fmap.
    replace (length (default [] (AgentConfig.actions config))
             + length (default [] (AgentConfig.workflows config)) + i
             - length (default [] (AgentConfig.actions config))
             - length (default [] (AgentConfig.workflows config)))%nat with i by lia.
    now rewrite list_lookup_fmap, Hlookup.
Qed.

Lemma agentLoop_draws config maxLoops :
  (forall capability,
      capability ∈ capabilities config -> drawsNothing (runCapability capability)) ->
  forall remaining loopCount w,
    (randomCalls w
     <= randomCalls (snd (agentLoop config maxLoops remaining loopCount w))
     <= randomCalls w + remaining)%nat.
Proof.
  intros Hnone.
  induction remaining as [| remaining IH]; intros loopCount w.
  - rewrite agentLoop_exit. cbn [snd pushed randomCalls]. lia.
  - rewrite agentLoop_step. cbv zeta.
    destruct (decide _) as [_ | _]; [cbn [snd pushed randomCalls]; lia |].
    destruct (Array_get _ _) as [capability |] eqn:Hget;
      [| cbn [snd pushed drawn randomCalls]; lia].
    pose proof (Array_get_Some_elem _ _ _ Hget) as Hin.
    rewrite dispatch_run.
    pose proof (Hnone capability Hin
                  (pushed (dispatchMessage capability)
                     (drawn (pushed (loopMessage loopCount maxLoops) w)))) as Hsame.
    destruct (runCapability capability _) as [[result | e | d] w2];
      cbn [snd pushed drawn randomCalls] in Hsame.
    + destruct (ActionReturn.done result).
      * cbn [snd pushed randomCalls]. lia.
      * specialize (IH (loopCount + 1) w2). lia.
    + cbn [snd]. lia.
    + cbn [snd]. lia.
Qed.

(** X8. The loop draws at most one selection per iteration: for an integer
    budget [maxLoops] (10 when absent), which admits [max 0 maxLoops]
    iterations, and capabilities that draw nothing themselves, one
    [Agent.execute] call draws at most [max 0 maxLoops] values from the
    decision tape, and never gives one back. *)
Theorem agent_draws_at_most_maxLoops_selections config options w :
  (forall capability,
      capability ∈ capabilities config -> drawsNothing (runCapability capability)) ->
  (randomCalls w
   <= randomCalls (snd (Agent.execute (createAgent config) options w))
   <= randomCalls w + Z.to_nat (default 10%Z (AgentOptions.maxLoops options)))%nat.
Proof.
  intros Hnone. rewrite createAgent_execute.
  apply (agentLoop_draws config _ Hnone _ 0
           (pushed ("Starting agent: " +:+ AgentConfig.name config) w)).
Qed.

End AgentStructureProperties.

Section PipelineProperties.
Context {E Ext : Type}.
Implicit Types (w : World Ext) (a b s : Action.t E Ext) (steps : list (Action.t E Ext)).

Lemma runUntilDone_nil a w :
  runUntilDone a [] w = Action.handle a ∅ w.
Proof.
  cbn [runUntilDone]. unfold flatMap.
  destruct (Action.handle a ∅ w) as [[r | e | d] w1]; try reflexivity.
  destruct (ActionReturn.done r); reflexivity.
Qed.

Lemma runUntilDone_snoc steps : forall a s w,
  runUntilDone a (steps ++ [s]) w =
    (let* result := runUntilDone a steps in
     if ActionReturn.done result then succeed result else Action.handle s ∅) w.
Proof.
  induction steps as [| b steps IH]; intros a s w.
  - cbn [app runUntilDone]. unfold flatMap.
    destruct (Action.handle a ∅ w) as [[r | e | d] w1]; try reflexivity.
    destruct (ActionReturn.done r) eqn:Hdone; cbn [succeed]; rewrite ?Hdone.
    + reflexivity.
    + destruct (Action.handle s ∅ w1) as [[r' | e' | d'] w2]; try reflexivity.
      destruct (ActionReturn.done r'); reflexivity.
  - change (runUntilDone a ((b :: steps) ++ [s]) w)
      with ((let* result := Action.handle a ∅ in
             if ActionReturn.done result then succeed result
             else runUntilDone b (steps ++ [s])) w).
    change (runUntilDone a (b :: steps))
      with (let* result := Action.handle a ∅ in
            if ActionReturn.done result then succeed result
            else runUntilDone b steps).
    unfold flatMap at 1 2 3.
    destruct (Action.handle a ∅ w) as [[r | e | d] w1]; try reflexivity.
    destruct (ActionReturn.done r) eqn:Hdone.
    + unfold succeed. now rewrite Hdone.
    + rewrite IH. reflexivity.
Qed.

Lemma pipeline_resolves a steps w :
  pipeline a steps w = (Success (pipelineFlow a steps), w).
Proof.
  induction steps as [| s steps IH] using rev_ind; [reflexivity |].
  unfold pipeline, pipelineFlow. rewrite !foldl_app. cbn [foldl].
  now apply andThen_resolves.
Qed.

Lemma pipelineFlow_execute a steps : forall executionState w,
  Flow.execute (pipelineFlow a steps) executionState w =
    map (asFlowResult executionState) (runUntilDone a steps) w.
Proof.
  induction steps as [| s steps IH] using rev_ind; intros executionState w.
  - unfold pipelineFlow, map. cbn [foldl firstFlow Flow.execute].
    unfold flatMap at 2. rewrite runUntilDone_nil. reflexivity.
  - unfold pipelineFlow. rewrite foldl_app. cbn [foldl].
    fold (pipelineFlow a steps). cbn [andThenFlow Flow.execute].
    unfold map. unfold flatMap at 1 3. rewrite IH, runUntilDone_snoc.
    unfold map, flatMap.
    destruct (runUntilDone a steps w) as [[r | e | d] w1]; try reflexivity.
    unfold succeed. cbn [asFlowResult FlowIntermediateResult.done].
    destruct (ActionReturn.done r); [reflexivity |].
    destruct (Action.handle s ∅ w1) as [[r' | e' | d'] w2]; reflexivity.
Qed.

(** X9. A flow written [pipe(first(a), andThen(s1), ..., andThen(sn))]
    resolves without any effect, and executing it calls [a], [s1], ...,
    [sn] in that order with [{}], stopping at the first that fails or
    returns [done = true]; the flow returns that action's [done] and
    [result], and as [nextState] always the state it was executed from. *)
Theorem pipeline_runs_actions_until_done a steps w0 :
  exists flow,
    pipeline a steps w0 = (Success flow, w0)
    /\ forall executionState w,
         Flow.execute flow executionState w =
           map (asFlowResult executionState) (runUntilDone a steps) w.
Proof.
  exists (pipelineFlow a steps). split.
  - apply pipeline_resolves.
  - apply pipelineFlow_execute.
Qed.

Lemma workflow_of_pipeline name description a steps w :
  Workflow.execute
    (createWorkflow
       {| WorkflowConfig.name := name;
          WorkflowConfig.description := description;
          WorkflowConfig.flow := pipeline a steps |}) tt w
  = runUntilDone a steps w.
Proof.
  cbn [createWorkflow Workflow.execute WorkflowConfig.flow].
  unfold map. unfold flatMap at 1 2. rewrite pipeline_resolves, pipelineFlow_execute.
  unfold map, flatMap.
  destruct (runUntilDone a steps w) as [[[done result] | e | d] w1]; reflexivity.
Qed.

(** X10. A workflow over such a pipeline returns exactly what calling the
    actions in order up to the first failure or [done = true] returns, in
    the world they leave: every [Workflow.execute] starts the flow afresh
    from [{}] and drops the flow's [nextState]. *)
Theorem workflow_of_pipeline_runs_until_done name description a steps w :
  Workflow.execute
    (createWorkflow
       {| WorkflowConfig.name := name;
          WorkflowConfig.description := description;
          WorkflowConfig.flow := pipeline a steps |}) tt w
  = runUntilDone a steps w
  /\ (forall r w',
        Action.handle a ∅ w = (Success r, w') ->
        ActionReturn.done r = true ->
        Workflow.execute
          (createWorkflow
             {| WorkflowConfig.name := name;
                WorkflowConfig.description := description;
                WorkflowConfig.flow := pipeline a steps |}) tt w
        = (Success r, w')).
Proof.
  split; [apply workflow_of_pipeline |].
  intros r w' Hrun Hdone. rewrite workflow_of_pipeline.
  destruct steps; cbn [runUntilDone]; rewrite (flatMap_success _ _ _ _ _ Hrun);
    now rewrite Hdone.
Qed.

End PipelineProperties.

Section CancelSubscriptionProperties.
Context {E Ext : Type}.
Variable JSON_stringify : JSValue -> string.
Implicit Types (w : World Ext).

Lemma doIf_over_resolved _condition
    (onTrue onFalse : Effect E Ext (Flow.t E Ext) -> Effect E Ext (Flow.t E Ext))
    (prevFlow : Flow.t E Ext) w :
  doIf _condition onTrue onFalse (succeed prevFlow) w =
    (if decisionAt w 0 then onTrue else onFalse) (succeed prevFlow) (drawn w).
Proof.
  rewrite (doIf_resolves _ _ _ (succeed prevFlow) w prevFlow w eq_refl).
  unfold decisionAt. now rewrite Nat.add_0_r.
Qed.

Lemma decisionAt_drawn w i : decisionAt (drawn w) i = decisionAt w (S i).
Proof.
  unfold decisionAt. cbn [drawn randomTape randomCalls].
  now rewrite Nat.add_succ_r.
Qed.

Lemma cancelSubscriptionFlow_resolves w :
  cancelSubscriptionFlow (E := E) JSON_stringify w =
    (Success
       (pipelineFlow askUserForCancellationReason
          (getSubscriptionDetails JSON_stringify
           :: cancelSubscriptionSteps (decisionAt w 0) (decisionAt w 1)
                (decisionAt w (if decisionAt w 0 then 2 else 1)))),
     drawnTimes (if decisionAt w 0 then 3 else 2) w).
Proof.
  unfold cancelSubscriptionFlow.
  set (F0 := pipelineFlow (E := E) (Ext := Ext) askUserForCancellationReason
               [getSubscriptionDetails JSON_stringify]).
  assert (Hmiddle :
    doIf "The user has only been subscribed for one month"
      (fun flow =>
         doIf "The user says yes to a free month"
           (andThen addOneMonthFree) noOp (andThen offerOneMonthFree flow))
      noOp
      (andThen (getSubscriptionDetails JSON_stringify)
         (first (E := E) askUserForCancellationReason)) w
    = (Success
         (pipelineFlow askUserForCancellationReason
            (getSubscriptionDetails JSON_stringify
             :: (if decisionAt w 0
                 then offerOneMonthFree
                      :: (if decisionAt w 1 then [addOneMonthFree] else [])
                 else []))),
       drawnTimes (if decisionAt w 0 then 2 else 1) w)).
  { change (andThen (getSubscriptionDetails JSON_stringify)
              (first (E := E) askUserForCancellationReason))
      with (succeed (E := E) (Ext := Ext) F0).
    rewrite doIf_over_resolved.
    destruct (decisionAt w 0); [| reflexivity].
    change (andThen offerOneMonthFree (succeed F0))
      with (succeed (E := E) (Ext := Ext) (andThenFlow offerOneMonthFree F0)).
    rewrite doIf_over_resolved, decisionAt_drawn.
    destruct (decisionAt w 1); reflexivity. }
  rewrite (doIf_resolves _ _ _ _ _ _ _ Hmiddle).
  unfold cancelSubscriptionSteps.
  destruct (decisionAt w 0) eqn:Hd1.
  - change (conditionMet (randomTape (drawnTimes 2 w) (randomCalls (drawnTimes 2 w))))
      with (conditionMet (randomTape w (S (S (randomCalls w))))).
    replace (conditionMet (randomTape w (S (S (randomCalls w))))) with (decisionAt w 2)
      by (unfold decisionAt; f_equal; f_equal; lia).
    destruct (decisionAt w 1), (decisionAt w 2); reflexivity.
  - change (conditionMet (randomTape (drawnTimes 1 w) (randomCalls (drawnTimes 1 w))))
      with (conditionMet (randomTape w (S (randomCalls w)))).
    replace (conditionMet (randomTape w (S (randomCalls w)))) with (decisionAt w 1)
      by (unfold decisionAt; f_equal; f_equal; lia).
    destruct (decisionAt w 1); reflexivity.
Qed.

(** X11. [cancelSubscriptionWorkflow] draws all its decisions before it
    calls any action: three when the first answer is true (one month only,
    yes to a free month, still wants to cancel), two otherwise (one month
    only, still wants to cancel). It then calls, in order and with [{}],
    the two fixed actions and the steps those answers select. With the
    module's services, the run succeeds, changes nothing but the decision
    count, and returns [done = true] exactly when the last answer is true,
    then with the email confirmation as its result. *)
Theorem cancelSubscriptionWorkflow_follows_decisions w :
  Workflow.execute (cancelSubscriptionWorkflow (E := E) JSON_stringify) tt w =
    runUntilDone askUserForCancellationReason
      (getSubscriptionDetails JSON_stringify
       :: cancelSubscriptionSteps (decisionAt w 0) (decisionAt w 1)
            (decisionAt w (if decisionAt w 0 then 2 else 1)))
      (drawnTimes (if decisionAt w 0 then 3 else 2) w)
  /\ exists r,
       Workflow.execute (cancelSubscriptionWorkflow (E := E) JSON_stringify) tt w =
         (Success r, drawnTimes (if decisionAt w 0 then 3 else 2) w)
       /\ ActionReturn.done r = decisionAt w (if decisionAt w 0 then 2 else 1)
       /\ (ActionReturn.done r = true ->
           ActionReturn.result r =
             "Cancellation confirmation email sent. We're sorry to see you go!").
Proof.
  assert (Hrun :
    Workflow.execute (cancelSubscriptionWorkflow (E := E) JSON_stringify) tt w =
      runUntilDone askUserForCancellationReason
        (getSubscriptionDetails JSON_stringify
         :: cancelSubscriptionSteps (decisionAt w 0) (decisionAt w 1)
              (decisionAt w (if decisionAt w 0 then 2 else 1)))
        (drawnTimes (if decisionAt w 0 then 3 else 2) w)).
  { cbn [cancelSubscriptionWorkflow createWorkflow Workflow.execute WorkflowConfig.flow].
    unfold map. unfold flatMap at 1 2.
    rewrite cancelSubscriptionFlow_resolves, pipelineFlow_execute.
    unfold map, flatMap.
    destruct (runUntilDone _ _ _) as [[[done result] | e | d] w1]; reflexivity. }
  split; [exact Hrun |].
  rewrite Hrun. unfold cancelSubscriptionSteps.
  destruct (decisionAt w 0); destruct (decisionAt w 1); try destruct (decisionAt w 2);
    (eexists; split; [reflexivity |]; split; [reflexivity |];
     cbn; intros; (reflexivity || discriminate)).
Qed.

End CancelSubscriptionProperties.

Section StoreSequenceProperties.
Context {E Ext : Type}.
Implicit Types (w : World Ext) (l : loc) (ops : list StoreOp).

Lemma runStoreOps_run ops : forall w,
  exists w',
    runStoreOps (E := E) ops w = (Success tt, w')
    /\ conversationHistory w' = conversationHistory w
    /\ history w' = history w ++ messagesOf ops
    /\ executionState w' =
         foldl (fun acc newState => newState ∪ acc) (executionState w) (updatesOf ops)
    /\ randomCalls w' = randomCalls w
    /\ services w' = services w.
Proof.
  induction ops as [| op ops IH]; intros w.
  - exists w. cbn. rewrite app_nil_r. repeat split.
  - destruct op as [message | newState].
    + destruct (IH (pushed message w))
        as (w' & Hrun & Href & Hhist & Hctx & Hcalls & Hservices).
      exists w'. split; [exact Hrun |]. split; [exact Href |].
      split; [| split; [exact Hctx | split; [exact Hcalls | exact Hservices]]].
      rewrite Hhist, history_pushed, <- app_assoc. reflexivity.
    + destruct (IH (mkWorld (arrays w) (conversationHistory w)
                      (newState ∪ executionState w)
                      (randomTape w) (randomCalls w) (services w)))
        as (w' & Hrun & Href & Hhist & Hctx & Hcalls & Hservices).
      exists w'. split; [exact Hrun |]. split; [exact Href |].
      split; [exact Hhist |]. split; [exact Hctx |]. split; [exact Hcalls | exact Hservices].
Qed.

Lemma lookup_merged k (updates : list JSRecord) : forall (before : JSRecord),
  (foldl (fun acc newState => newState ∪ acc) before updates) !! k
  = lastWrite k (before !! k) updates.
Proof.
  induction updates as [| newState updates IH]; intros before; [reflexivity |].
  cbn [foldl]. rewrite IH. unfold lastWrite. cbn [foldl].
  rewrite lookup_union.
  destruct (newState !! k), (before !! k); reflexivity.
Qed.

(** X12. The history is append-only and keeps insertion order, and the two
    halves of the store do not interfere: after any sequence of
    [addMessage] and [updateState] calls, which never fails, the history is
    the former history followed by the appended messages in call order,
    whatever updates were interleaved, and the history reference, the
    decision tape position and the collaborators are untouched. *)
Theorem store_history_is_append_only ops w :
  exists w',
    runStoreOps (E := E) ops w = (Success tt, w')
    /\ conversationHistory w' = conversationHistory w
    /\ history w' = history w ++ messagesOf ops
    /\ randomCalls w' = randomCalls w
    /\ services w' = services w.
Proof.
  destruct (runStoreOps_run ops w) as (w' & Hrun & Href & Hhist & _ & Hcalls & Hservices).
  exists w'. repeat split; assumption.
Qed.

(** X13. [updateState] is a shallow merge in which the last write wins:
    after any sequence of [addMessage] and [updateState] calls, every key of
    the context holds the value of the last update that mentions it, and
    its former value when none does; interleaved messages do not matter. *)
Theorem store_context_last_write_wins ops w (k : string) :
  exists w',
    runStoreOps (E := E) ops w = (Success tt, w')
    /\ executionState w' !! k = lastWrite k (executionState w !! k) (updatesOf ops).
Proof.
  destruct (runStoreOps_run ops w) as (w' & Hrun & _ & _ & Hctx & _).
  exists w'. split; [exact Hrun |]. rewrite Hctx. apply lookup_merged.
Qed.

(** X14. A new [AgentStateService] starts with an empty history and an
    empty context, and its history array is a fresh one: every array that
    existed keeps its contents, also after messages are appended to the new
    store, so two service instances never share a history. *)
Theorem AgentStateService_Default_is_fresh w :
  history (snd (AgentStateService_Default (E := E) w)) = []
  /\ executionState (snd (AgentStateService_Default (E := E) w)) = ∅
  /\ (conversationHistory (snd (AgentStateService_Default (E := E) w)) ∉ dom (arrays w))
  /\ (forall l, deref (snd (AgentStateService_Default (E := E) w)) l = deref w l)
  /\ (forall message l,
        l ∈ dom (arrays w) ->
        deref (pushed message (snd (AgentStateService_Default (E := E) w))) l = deref w l).
Proof.
  cbn [AgentStateService_Default sync snd allocArray].
  set (fresh_l := fresh (dom (arrays w))).
  assert (Hfresh : fresh_l ∉ dom (arrays w)) by apply is_fresh.
  assert (Hnone : arrays w !! fresh_l = None) by now apply not_elem_of_dom.
  assert (Hsame : forall l, readArray (<[fresh_l := []]> (arrays w)) l = readArray (arrays w) l).
  { intros l. unfold readArray. destruct (decide (l = fresh_l)) as [-> | Hne].
    - now rewrite lookup_insert_eq, Hnone.
    - now rewrite lookup_insert_ne by congruence. }
  split; [| split; [reflexivity | split; [exact Hfresh | split]]].
  - unfold history, deref. cbn [arrays conversationHistory].
    unfold readArray. now rewrite lookup_insert_eq.
  - intros l. unfold deref. cbn [arrays]. apply Hsame.
  - intros message l Hin. unfold deref. cbn [pushed arrays conversationHistory].
    unfold pushArray, readArray at 1.
    rewrite lookup_insert_ne by (intros ->; contradiction).
    apply Hsame.
Qed.

End StoreSequenceProperties.

(** * The further properties at concrete inputs *)

(** X1 at the polling agent with [maxLoops = 0]: the stub never ran. *)
Lemma agent_without_budget_returns_at_once_witness :
  let w := initialWorld (tapeOf [] (1 # 3)%Q) 0%nat in
  Agent.execute (createAgent pollingAgent) {| AgentOptions.maxLoops := Some 0 |} w =
    (Success {| ActionReturn.done := true;
                ActionReturn.result := "Agent reached maximum loops (0)" |},
     pushed "Agent reached max loops (0)" (pushed "Starting agent: Poller" w)).
Proof.
  intros w.
  apply (agent_without_budget_returns_at_once pollingAgent
           {| AgentOptions.maxLoops := Some 0 |} w).
  cbn. lia.
Defined.

(** X2 at an agent configured with no lists at all and the default budget. *)
Lemma agent_without_capabilities_returns_at_once_witness :
  let w := initialWorld (tapeOf [] (1 # 3)%Q) 0%nat in
  let idle : AgentConfig.t Empty_set nat :=
    {| AgentConfig.name := "Idle";
       AgentConfig.description := "";
       AgentConfig.actions := None;
       AgentConfig.workflows := None;
       AgentConfig.agents := None |} in
  Agent.execute (createAgent idle) {| AgentOptions.maxLoops := None |} w =
    (Success {| ActionReturn.done := true;
                ActionReturn.result := "No capabilities available" |},
     pushed "Agent loop 1/10" (pushed "Starting agent: Idle" w)).
Proof.
  intros w idle.
  apply (agent_without_capabilities_returns_at_once idle
           {| AgentOptions.maxLoops := None |} w); reflexivity.
Defined.

(** X4 at [logsAgent], whose selected action fails to decode [{}]. *)
Lemma agent_propagates_capability_failure_witness :
  let w := initialWorld (tapeOf [] (1 # 3)%Q) 0%nat in
  let agent : AgentConfig.t Empty_set nat := logsAgent in
  Agent.execute (createAgent agent) {| AgentOptions.maxLoops := Some 3 |} w =
    (Failure (ParseError "query is missing"),
     pushed "Executing action: SearchLogs"
       (drawn (pushed "Agent loop 1/3" (pushed "Starting agent: Logs Agent" w)))).
Proof.
  intros w agent.
  apply (proj2 (agent_propagates_capability_failure agent 3 2%nat 0
                  {| AgentOptions.maxLoops := Some 3 |} w
                  (CapAction searchLogsAction)
                  (Failure (ParseError "query is missing"))
                  ltac:(reflexivity) ltac:(discriminate))); reflexivity.
Defined.

Lemma logsAgent_rejectsEmptyArguments (capability : Capability Empty_set nat) :
  capability ∈ capabilities logsAgent -> rejectsEmptyArguments capability.
Proof.
  intros Hin. cbn in Hin.
  apply elem_of_cons in Hin as [-> | Hin];
    [| apply list_elem_of_singleton in Hin as ->].
  - unfold searchLogsAction. eexists _, _. split; reflexivity.
  - unfold respondAction. eexists _, _. split; reflexivity.
Qed.

(** X5 at [logsAgent] with the budget the demo program gives it. *)
Lemma agent_fails_on_required_parameters_witness :
  let w := initialWorld (tapeOf [] (1 # 3)%Q) 0%nat in
  let agent : AgentConfig.t Empty_set nat := logsAgent in
  exists capability error,
    capability ∈ capabilities agent
    /\ Agent.execute (createAgent agent) {| AgentOptions.maxLoops := Some 3 |} w =
         (Failure (ParseError error),
          pushed (dispatchMessage capability)
            (drawn (pushed "Agent loop 1/3" (pushed "Starting agent: Logs Agent" w)))).
Proof.
  intros w agent.
  apply (agent_fails_on_required_parameters agent
           {| AgentOptions.maxLoops := Some 3 |} w).
  - discriminate.
  - exact logsAgent_rejectsEmptyArguments.
  - apply tapeOf_nil_in_range.
  - reflexivity.
Defined.

(** X6 at the parent of the polling agent, with a budget of 2. *)
Lemma parent_agent_runs_sub_agent_five_times_witness :
  let w := initialWorld (tapeOf [] (1 # 3)%Q) 0%nat in
  exists w',
    Agent.execute (createAgent parentAgent) {| AgentOptions.maxLoops := Some 2 |} w
      = (Success {| ActionReturn.done := true;
                    ActionReturn.result := "Agent reached maximum loops (5)" |}, w')
    /\ services w' = 5%nat.
Proof.
  intros w.
  apply (parent_agent_runs_sub_agent_five_times parentAgent pollingAgent stubPending
           (fun n => n) {| AgentOptions.maxLoops := Some 2 |} w).
  - reflexivity.
  - reflexivity.
  - exact stubPending_alwaysContinues.
  - apply tapeOf_nil_in_range.
  - reflexivity.
Defined.

(** X7 at [subscriptionAgent]: index 2 is its workflow. *)
Lemma capabilities_are_indexed_in_declared_order_witness :
  let agent : AgentConfig.t Empty_set nat := subscriptionAgent (fun _ => "{}") in
  Array_get (capabilities agent) 0 = Some (CapAction (getSubscriptionDetails (fun _ => "{}")))
  /\ Array_get (capabilities agent) 2
     = Some (CapWorkflow (cancelSubscriptionWorkflow (fun _ => "{}"))).
Proof.
  intros agent.
  destruct (capabilities_are_indexed_in_declared_order agent 0)
    as (Haction & Hworkflow & _).
  split.
  - apply (Haction (getSubscriptionDetails (fun _ => "{}"))). reflexivity.
  - apply (Hworkflow (cancelSubscriptionWorkflow (fun _ => "{}"))). reflexivity.
Defined.

Lemma pollingAgent_drawsNothing capability :
  capability ∈ capabilities pollingAgent -> drawsNothing (runCapability capability).
Proof.
  intros Hin. apply list_elem_of_singleton in Hin. subst capability.
  intros w. reflexivity.
Qed.

(** X8 at the polling agent with [maxLoops = 2]. *)
Lemma agent_draws_at_most_maxLoops_selections_witness :
  let w := initialWorld (tapeOf [] (1 # 3)%Q) 0%nat in
  (randomCalls w
   <= randomCalls (snd (Agent.execute (createAgent pollingAgent)
                          {| AgentOptions.maxLoops := Some 2%Z |} w))
   <= randomCalls w + 2)%nat.
Proof.
  intros w.
  apply (agent_draws_at_most_maxLoops_selections pollingAgent
           {| AgentOptions.maxLoops := Some 2 |} w).
  exact pollingAgent_drawsNothing.
Defined.

(** X10 at stubs: the first action is done, the second is never called. *)
Lemma workflow_of_pipeline_runs_until_done_witness :
  let w := initialWorld (tapeOf [] (1 # 3)%Q) 0%nat in
  Workflow.execute
    (createWorkflow
       {| WorkflowConfig.name := "Respond first";
          WorkflowConfig.description := "";
          WorkflowConfig.flow := pipeline stubDone [stubNeedsQuery] |}) tt w
  = (Success {| ActionReturn.done := true; ActionReturn.result := "hi" |},
     bumpServices w).
Proof.
  intros w.
  apply (proj2 (workflow_of_pipeline_runs_until_done "Respond first" ""
                  stubDone [stubNeedsQuery] w)); reflexivity.
Defined.

(** [cancelSubscriptionWorkflow] when the answers are no, yes: two
    decisions are drawn and the email confirmation is the result. *)
Example cancelSubscriptionWorkflow_cancels :
  let w := initialWorld (tapeOf [(1 # 10)%Q; (9 # 10)%Q] (1 # 10)%Q) 0%nat in
  Workflow.execute (cancelSubscriptionWorkflow (E := Empty_set) (fun _ => "{}")) tt w
  = (Success {| ActionReturn.done := true;
                ActionReturn.result :=
                  "Cancellation confirmation email sent. We're sorry to see you go!" |},
     drawnTimes 2 w).
Proof. vm_compute. reflexivity. Qed.
